(** * Mini-Reconciliation-Tool: the reconciliation engine

    A shallow embedding of [merger.py], [classifier.py], [finalizer.py] and
    [reconciler.py].  The engine is written against pandas: the data frames
    are mutable objects that the code copies, tags in place and renames in
    place.  The embedding therefore has two layers:

    - a value layer: scalars, series, frames and the pandas operations the
      engine calls, as pure functions on frame values;
    - an object layer: a store of frame objects addressed by reference, and
      a state-and-exception monad in which the four Python functions are
      written statement by statement.

    What is taken from pandas rather than from the repository: the type
    of a column ([int64], [float64] or [object]), element-wise [==] and
    [!=] (a missing value is equal to nothing; a column of whole numbers
    compared with a floating-point column is converted to floating point),
    boolean indexing, column selection and assignment, [rename], and the
    outer [merge] with its indicator column (key columns of a numeric type
    and of text are refused; a column of whole numbers in which the join
    leaves a value missing becomes a floating-point column).  Frames have
    distinct column labels, as the ones [read_csv] yields.  The configuration is the dictionary loaded from
    YAML, with the keys the engine reads as record fields; [merge_key] is a
    list of labels (a single label is the one-element list).  Calls to the
    logger are left out: they do not change tables or results. *)

From Stdlib Require Import ZArith String.
From Stdlib Require Import Floats.SpecFloat.
From stdpp Require Import base option list strings.

Local Open Scope string_scope.
Local Open Scope list_scope.

(** ** Scalars and element-wise comparison *)

(** A cell of a frame.  [NaN] is the missing value that [read_csv] and the
    outer join produce.  [Int z] is the whole number [z]: an [int64] value,
    or, in a floating-point column, the [float64] value [z.0].  [Flt h k]
    is the [float64] value [(2h+1) / 2^k], a number that is not whole
    ([Flt 10 1] is 10.5).  Text is a string. *)
Inductive scalar : Type :=
  | NaN
  | Int (z : Z)
  | Flt (h : Z) (k : positive)
  | Str (s : string).

#[global] Instance scalar_eq_dec : EqDecision scalar.
Proof. solve_decision. Defined.

(** [==] on two values of one type: a missing value is equal to nothing,
    not even to another missing value; values of different types differ (a
    whole number is never a number that is not whole). *)
Definition scalar_eq (a b : scalar) : bool :=
  match a, b with
  | Int x, Int y => Z.eqb x y
  | Flt h k, Flt h' k' => Z.eqb h h' && Pos.eqb k k'
  | Str s, Str t => String.eqb s t
  | _, _ => false
  end.

(** [!=] on two values of one type: true as soon as one side is missing. *)
Definition scalar_ne (a b : scalar) : bool :=
  match a, b with
  | Int x, Int y => negb (Z.eqb x y)
  | Flt h k, Flt h' k' => negb (Z.eqb h h' && Pos.eqb k k')
  | Str s, Str t => negb (String.eqb s t)
  | _, _ => true
  end.

(** A series is a column of values; a mask is a boolean series. *)
Definition series := list scalar.
Definition mask := list bool.

(** *** Column types *)

(** The types pandas gives the columns of these frames. *)
Inductive dtype : Type :=
  | int64
  | float64
  | object.

Definition is_Int (v : scalar) : bool :=
  match v with Int _ => true | _ => false end.
Definition is_Str (v : scalar) : bool :=
  match v with Str _ => true | _ => false end.

(** The type of a column, from what it holds: [object] with text (and
    without rows), [int64] with whole numbers only, [float64] with numbers
    of which one is missing or not whole. *)
Definition dtype_of (vals : series) : dtype :=
  match vals with
  | [] => object
  | _ :: _ =>
      if existsb is_Str vals then object
      else if forallb is_Int vals then int64
      else float64
  end.

(** The [float64] nearest to a whole number (ties to the even significand):
    the number itself up to [2^53], beyond that the number rounded to 53
    significant bits. *)
Definition to_float64 (z : Z) : Z :=
  let a := Z.abs z in
  if (a <=? 2 ^ 53)%Z then z
  else
    let drop := (Z.log2 a - 52)%Z in
    let kept := Z.shiftr a drop in
    let rest := Z.land a (Z.ones drop) in
    let half := Z.shiftl 1 (drop - 1) in
    let kept := if ((half <? rest) || ((rest =? half) && Z.odd kept))%Z
                then (kept + 1)%Z else kept in
    (Z.sgn z * Z.shiftl kept drop)%Z.

(** The same rounding by the IEEE 754 model of the standard library. *)
Definition to_binary64 (z : Z) : Z :=
  match binary_normalize 53 1024 z 0 false with
  | S754_finite s m e => cond_Zopp s (Z.shiftl (Z.pos m) e)
  | S754_zero _ => 0%Z
  | _ => z
  end.

(** A value as a column of type [d] holds it: a floating-point column
    holds whole numbers as [float64]. *)
Definition held (d : dtype) (v : scalar) : scalar :=
  match d, v with
  | float64, Int z => Int (to_float64 z)
  | _, _ => v
  end.

(** The type in which a column of type [d] is compared with a column of
    type [other]: numpy converts [int64] to [float64] when the other side
    is [float64]; an [object] column is compared value by value. *)
Definition promote (d other : dtype) : dtype :=
  match d, other with
  | int64, float64 => float64
  | _, _ => d
  end.

(** Element-wise [==] and [!=] of two columns. *)
Definition series_eq (a b : series) : mask :=
  let da := dtype_of a in
  let db := dtype_of b in
  zip_with scalar_eq (map (held (promote da db)) a) (map (held (promote db da)) b).
Definition series_ne (a b : series) : mask :=
  let da := dtype_of a in
  let db := dtype_of b in
  zip_with scalar_ne (map (held (promote da db)) a) (map (held (promote db da)) b).
Definition series_eq_scalar (a : series) (v : scalar) : mask :=
  map (fun x => scalar_eq x v) a.
Definition mask_and (a b : mask) : mask := zip_with andb a b.
Definition mask_or (a b : mask) : mask := zip_with orb a b.

(** ** Frames *)

(** A frame has ordered column labels and rows; every row carries its index
    label and one cell per column. *)
Definition row : Type := nat * list scalar.

Record DataFrame : Type := mkDF {
  columns : list string;
  rows : list row
}.

Definition index (df : DataFrame) : list nat := map fst (rows df).

(** Rectangular frames with distinct column labels (what [read_csv] yields). *)
Definition wf_frame (df : DataFrame) : Prop :=
  NoDup (columns df) /\
  Forall (fun r => length (snd r) = length (columns df)) (rows df).

Fixpoint col_pos (c : string) (cols : list string) : option nat :=
  match cols with
  | [] => None
  | c' :: cols' =>
      if String.eqb c c' then Some 0 else option_map S (col_pos c cols')
  end.

Definition has_col (c : string) (cols : list string) : bool :=
  match col_pos c cols with Some _ => true | None => false end.

(** The cell of a row under column [c]; missing if the column is absent. *)
Definition cell (cols : list string) (vals : list scalar) (c : string) : scalar :=
  match col_pos c cols with
  | Some p => nth p vals NaN
  | None => NaN
  end.

(** The values of column [c], and the type of the column. *)
Definition column_values (df : DataFrame) (c : string) : series :=
  map (fun r => cell (columns df) (snd r) c) (rows df).

Definition column_dtype (df : DataFrame) (c : string) : dtype :=
  dtype_of (column_values df c).

(** ** Exceptions *)

(** [KeyError] carries the label that was not found.  [PandasError] stands
    for the other exceptions pandas raises while merging ([ValueError],
    [MergeError], ...), with the reason.  [ReferenceError] is the access to
    an object that does not exist; no engine function reaches it when its
    arguments are live objects. *)
Inductive exn : Type :=
  | KeyError (k : string)
  | PandasError (reason : string)
  | ReferenceError.

Inductive result (A : Type) : Type :=
  | Ok (a : A)
  | Raise (e : exn).
Arguments Ok {A} a.
Arguments Raise {A} e.

(** ** pandas operations on frame values *)

(** [df[c]] *)
Definition df_getitem_col (df : DataFrame) (c : string) : result series :=
  match col_pos c (columns df) with
  | Some p => Ok (map (fun r => nth p (snd r) NaN) (rows df))
  | None => Raise (KeyError c)
  end.

(** [df[mask]]: the rows whose mask entry is true, with their index labels. *)
Fixpoint select_rows (rs : list row) (m : mask) : list row :=
  match rs, m with
  | r :: rs', b :: m' => if b then r :: select_rows rs' m' else select_rows rs' m'
  | _, _ => []
  end.

Definition df_getitem_mask (df : DataFrame) (m : mask) : DataFrame :=
  mkDF (columns df) (select_rows (rows df) m).

(** [df[c] = v] with a scalar [v]: overwrite the column if it exists,
    append it otherwise. *)
Definition df_setitem (c : string) (v : scalar) (df : DataFrame) : DataFrame :=
  match col_pos c (columns df) with
  | Some p => mkDF (columns df) (map (fun r => (fst r, <[p := v]> (snd r))) (rows df))
  | None => mkDF (columns df ++ [c]) (map (fun r => (fst r, snd r ++ [v])) (rows df))
  end.

(** [df[cols]] with a list of labels. *)
Fixpoint first_missing (cols : list string) (have : list string) : option string :=
  match cols with
  | [] => None
  | c :: cols' => if has_col c have then first_missing cols' have else Some c
  end.

Definition df_getitem_cols (df : DataFrame) (cols : list string) : result DataFrame :=
  match first_missing cols (columns df) with
  | Some c => Raise (KeyError c)
  | None =>
      Ok (mkDF cols
            (map (fun r => (fst r, map (cell (columns df) (snd r)) cols)) (rows df)))
  end.

(** [mapping.get(c, c)] on a dict given as an association list. *)
Fixpoint dict_get {V : Type} (d : list (string * V)) (k : string) : option V :=
  match d with
  | [] => None
  | (k', v) :: d' => if String.eqb k k' then Some v else dict_get d' k
  end.

(** [d[k] = v] *)
Fixpoint dict_set {V : Type} (d : list (string * V)) (k : string) (v : V)
  : list (string * V) :=
  match d with
  | [] => [(k, v)]
  | (k', v') :: d' =>
      if String.eqb k k' then (k, v) :: d' else (k', v') :: dict_set d' k v
  end.

Definition rename_label (mapping : list (string * string)) (c : string) : string :=
  match dict_get mapping c with Some c' => c' | None => c end.

(** [df.rename(columns=mapping)] *)
Definition df_rename (mapping : list (string * string)) (df : DataFrame) : DataFrame :=
  mkDF (map (rename_label mapping) (columns df)) (rows df).

(** ** The object store and the monad of the engine *)

Abbreviation loc := nat (only parsing).
Abbreviation heap := (list DataFrame) (only parsing).

Definition M (A : Type) : Type := heap -> heap * result A.

Definition ret {A} (a : A) : M A := fun h => (h, Ok a).
Definition raise {A} (e : exn) : M A := fun h => (h, Raise e).
Definition bind {A B} (m : M A) (k : A -> M B) : M B :=
  fun h =>
    match m h with
    | (h', Ok a) => k a h'
    | (h', Raise e) => (h', Raise e)
    end.

Declare Scope eng_scope.
Delimit Scope eng_scope with eng.
Notation "x <- c1 ;; c2" := (bind c1 (fun x => c2))
  (at level 100, c1 at next level, right associativity) : eng_scope.
Notation "c1 ;;; c2" := (bind c1 (fun _ => c2))
  (at level 100, right associativity) : eng_scope.
Local Open Scope eng_scope.

Definition lift {A} (r : result A) : M A := fun h => (h, r).

(** [try: body except KeyError as e: handler(e)] *)
Definition try_except_KeyError {A} (body : M A) (handler : string -> M A) : M A :=
  fun h =>
    match body h with
    | (h', Raise (KeyError k)) => handler k h'
    | other => other
    end.

Definition alloc (df : DataFrame) : M loc := fun h => (h ++ [df], Ok (length h)).

Definition load (l : loc) : M DataFrame :=
  fun h => match h !! l with
           | Some df => (h, Ok df)
           | None => (h, Raise ReferenceError)
           end.

Definition modify (l : loc) (f : DataFrame -> DataFrame) : M unit :=
  fun h => match h !! l with
           | Some df => (<[l := f df]> h, Ok tt)
           | None => (h, Raise ReferenceError)
           end.

(** The pandas calls of the engine, on frame objects. *)
Definition getitem_col (l : loc) (c : string) : M series :=
  df <- load l ;; lift (df_getitem_col df c).

Definition getitem_mask (l : loc) (m : mask) : M loc :=
  df <- load l ;; alloc (df_getitem_mask df m).

Definition copy (l : loc) : M loc := df <- load l ;; alloc df.

Definition setitem (l : loc) (c : string) (v : scalar) : M unit :=
  modify l (df_setitem c v).

Definition get_columns (l : loc) : M (list string) :=
  df <- load l ;; ret (columns df).

Definition getitem_cols (l : loc) (cols : list string) : M loc :=
  df <- load l ;; df' <- lift (df_getitem_cols df cols) ;; alloc df'.

Definition rename_inplace (l : loc) (mapping : list (string * string)) : M unit :=
  modify l (df_rename mapping).

(** A [for] loop threading an accumulator. *)
Fixpoint for_each {A B} (xs : list A) (body : B -> A -> M B) (acc : B) : M B :=
  match xs with
  | [] => ret acc
  | x :: xs' => acc' <- body acc x ;; for_each xs' body acc'
  end.

(** ** Configuration *)

Record comparison_pair : Type := mkPair {
  base : string;
  suffixes : string * string
}.

Record merge_status_t : Type := mkStatus {
  both : string;
  left_only : string;
  right_only : string
}.

Record result_labels_t : Type := mkLabels {
  matched : string;
  only_internal : string;
  only_provider : string;
  mismatched : string
}.

Record config : Type := mkConfig {
  merge_key : list string;
  merge_suffixes : string * string;
  merge_indicator : string;
  merge_status : merge_status_t;
  comparison_pairs : list comparison_pair;
  result_labels : result_labels_t;
  rename_columns : list (string * string)
}.

Definition left_col (pair : comparison_pair) : string :=
  base pair +:+ fst (suffixes pair).
Definition right_col (pair : comparison_pair) : string :=
  base pair +:+ snd (suffixes pair).

(** ** classifier.py *)

Definition classify_merged_rows (merged : loc) (config : config)
  : M (list (string * loc)) :=
  let merge_col := merge_indicator config in
  let status := merge_status config in
  let labels := result_labels config in
  (* Matched *)
  marker <- getitem_col merged merge_col ;;
  match_cond <-
    for_each (comparison_pairs config)
      (fun match_cond pair =>
         l <- getitem_col merged (left_col pair) ;;
         r <- getitem_col merged (right_col pair) ;;
         ret (mask_and match_cond (series_eq l r)))
      (series_eq_scalar marker (Str (both status))) ;;
  sel <- getitem_mask merged match_cond ;;
  matched_df <- copy sel ;;
  setitem matched_df "result" (Str (matched labels)) ;;;
  (* Only internal *)
  marker <- getitem_col merged merge_col ;;
  sel <- getitem_mask merged (series_eq_scalar marker (Str (left_only status))) ;;
  only_internal_df <- copy sel ;;
  setitem only_internal_df "result" (Str (only_internal labels)) ;;;
  (* Only provider *)
  marker <- getitem_col merged merge_col ;;
  sel <- getitem_mask merged (series_eq_scalar marker (Str (right_only status))) ;;
  only_provider_df <- copy sel ;;
  setitem only_provider_df "result" (Str (only_provider labels)) ;;;
  (* Mismatched *)
  marker <- getitem_col merged merge_col ;;
  let mismatch_cond := series_eq_scalar marker (Str (both status)) in
  mismatch_pairs <-
    for_each (comparison_pairs config)
      (fun mismatch_pairs pair =>
         l <- getitem_col merged (left_col pair) ;;
         r <- getitem_col merged (right_col pair) ;;
         ret (mismatch_pairs ++ [series_ne l r]))
      [] ;;
  let mismatch_cond :=
    match mismatch_pairs with
    | [] => mismatch_cond
    | first :: rest =>
        let mismatch_total := fold_left mask_or rest first in
        mask_and mismatch_cond mismatch_total
    end in
  sel <- getitem_mask merged mismatch_cond ;;
  mismatched_df <- copy sel ;;
  setitem mismatched_df "result" (Str (mismatched labels)) ;;;
  ret [("matched", matched_df);
       ("only_internal", only_internal_df);
       ("only_provider", only_provider_df);
       ("mismatched", mismatched_df)].

(** ** pandas outer merge with indicator *)

(** A full outer join of two lists: every left element with each of its
    partners, or alone; then the right elements without a partner.  (pandas
    orders the result by key or by first appearance depending on its
    version; no property below depends on the order.) *)
Definition outer_join {A B C} (matches : A -> B -> bool)
    (pair : A -> B -> C) (left_alone : A -> C) (right_alone : B -> C)
    (L : list A) (R : list B) : list C :=
  flat_map
    (fun l =>
       match List.filter (matches l) R with
       | [] => [left_alone l]
       | partners => map (pair l) partners
       end) L
  ++ map right_alone
       (List.filter (fun r => negb (existsb (fun l => matches l r) L)) R).

(** Where a column of the merged frame comes from. *)
Inductive origin : Type :=
  | FromLeft (c : string)
  | FromRight (c : string).

Section Merge.
Variable on : list string.
Variable sfx : string * string.
Variables lcols rcols : list string.

Definition is_key (c : string) : bool := has_col c on.

(** A non-key label carried by both frames is disambiguated by a suffix. *)
Definition overlapping (c : string) : bool :=
  negb (is_key c) && has_col c lcols && has_col c rcols.

(** Left columns in order, then the right columns that are not keys. *)
Definition origins : list origin :=
  map FromLeft lcols ++ map FromRight (List.filter (fun c => negb (is_key c)) rcols).

Definition merged_label (o : origin) : string :=
  match o with
  | FromLeft c => if overlapping c then c +:+ fst sfx else c
  | FromRight c => if overlapping c then c +:+ snd sfx else c
  end.

Definition merge_labels : list string := map merged_label origins.

(** The literal values pandas writes in the indicator column. *)
Definition indicator_value (l r : option (list scalar)) : string :=
  match l, r with
  | Some _, Some _ => "both"
  | Some _, None => "left_only"
  | None, _ => "right_only"
  end.

(** The columns of the merged frame that hold the join keys. *)
Definition is_key_origin (o : origin) : bool :=
  match o with
  | FromLeft c => is_key c
  | FromRight _ => false
  end.

Fixpoint first_missing_key (keys : list string) : option string :=
  match keys with
  | [] => None
  | k :: keys' =>
      if negb (has_col k rcols) then Some k
      else if negb (has_col k lcols) then Some k
      else first_missing_key keys'
  end.
End Merge.

Definition number_rows (rs : list (list scalar)) : list row :=
  zip (seq 0 (length rs)) rs.

(** The key of a row of [this] as it is matched against the rows of
    [other]: every key cell in the common type of the two key columns. *)
Definition join_key (on : list string) (this other : DataFrame) (vals : list scalar)
  : list scalar :=
  map (fun k => held (promote (column_dtype this k) (column_dtype other k))
                  (cell (columns this) vals k)) on.

(** pandas refuses to merge a numeric key column with a key column of
    text, unless one of the two frames has no rows.  (A column of text and
    whole numbers is inferred as mixed and is let through.) *)
Definition numeric_column (vals : series) : bool :=
  match dtype_of vals with
  | int64 | float64 => true
  | object => false
  end.

Definition text_column (vals : series) : bool :=
  existsb is_Str vals && negb (existsb is_Int vals).

Definition key_types_clash (on : list string) (left right : DataFrame) : bool :=
  match rows left, rows right with
  | _ :: _, _ :: _ =>
      existsb (fun k =>
                 let lk := column_values left k in
                 let rk := column_values right k in
                 (numeric_column lk && text_column rk)
                 || (text_column lk && numeric_column rk)) on
  | _, _ => false
  end.

Section Join.
Variable on : list string.
Variables left right : DataFrame.

(** Join keys are matched by identity of values in the common type: two
    missing keys match. *)
Definition keys_match (lv rv : list scalar) : bool :=
  bool_decide (join_key on left right lv = join_key on right left rv).

(** The rows that are joined: a left row with each of its partners, a left
    row alone, a right row alone. *)
Definition joined_pairs : list (option (list scalar) * option (list scalar)) :=
  outer_join
    (fun l r => keys_match (snd l) (snd r))
    (fun l r => (Some (snd l), Some (snd r)))
    (fun l => (Some (snd l), None))
    (fun r => (None, Some (snd r)))
    (rows left) (rows right).

(** The cell of a joined row before the column gets its type: in a key
    column the key of the row in the common type; elsewhere the side's own
    value when the side is present, missing otherwise. *)
Definition joined_cell (l r : option (list scalar)) (o : origin) : scalar :=
  match o with
  | FromLeft c =>
      if is_key on c then
        match l, r with
        | Some lv, _ =>
            held (promote (column_dtype left c) (column_dtype right c))
              (cell (columns left) lv c)
        | None, Some rv =>
            held (promote (column_dtype right c) (column_dtype left c))
              (cell (columns right) rv c)
        | None, None => NaN
        end
      else
        match l with
        | Some lv => cell (columns left) lv c
        | None => NaN
        end
  | FromRight c =>
      match r with
      | Some rv => cell (columns right) rv c
      | None => NaN
      end
  end.

Definition joined_column (o : origin) : series :=
  map (fun lr => joined_cell (fst lr) (snd lr) o) joined_pairs.

(** The cell as the merged frame holds it: a column of whole numbers in
    which the join leaves a value missing becomes a floating-point
    column. *)
Definition merged_cell (lr : option (list scalar) * option (list scalar)) (o : origin)
  : scalar :=
  if is_key_origin on o then joined_cell (fst lr) (snd lr) o
  else held (dtype_of (joined_column o)) (joined_cell (fst lr) (snd lr) o).

Definition joined_row (lr : option (list scalar) * option (list scalar)) : list scalar :=
  map (merged_cell lr) (origins on (columns left) (columns right))
  ++ [Str (indicator_value (fst lr) (snd lr))].

Definition joined_rows : list (list scalar) := map joined_row joined_pairs.
End Join.

(** [left.merge(right, on=on, how='outer', suffixes=sfx, indicator=ind)] on
    frame values. *)
Definition df_merge_outer (left right : DataFrame) (on : list string)
    (sfx : string * string) (ind : string) : result DataFrame :=
  let lcols := columns left in
  let rcols := columns right in
  match first_missing_key lcols rcols on with
  | Some k => Raise (KeyError k)
  | None =>
      if key_types_clash on left right
      then Raise (PandasError "You are trying to merge on columns of incompatible types")
      else if existsb (fun c => has_col c lcols || has_col c rcols)
           [ind; "_left_indicator"; "_right_indicator"]
      then Raise (PandasError "Cannot use name of an existing column for indicator column")
      else
        match on with
        | [] => Raise (PandasError "no key to merge on")
        | _ =>
            let labels := merge_labels on sfx lcols rcols in
            if existsb (overlapping on lcols rcols) lcols
               && String.eqb (fst sfx) "" && String.eqb (snd sfx) ""
            then Raise (PandasError "columns overlap but no suffix specified")
            else if bool_decide (NoDup labels) then
              Ok (mkDF (labels ++ [ind]) (number_rows (joined_rows on left right)))
            else Raise (PandasError "suffixes cause duplicate columns")
        end
  end.

Definition merge (left right : loc) (on : list string) (sfx : string * string)
    (ind : string) : M loc :=
  l <- load left ;;
  r <- load right ;;
  m <- lift (df_merge_outer l r on sfx ind) ;;
  alloc m.

(** ** merger.py *)

Definition merge_dataframes (df_internal df_provider : loc) (config : config)
  : M loc :=
  try_except_KeyError
    (merged <- merge df_internal df_provider
                 (merge_key config) (merge_suffixes config) (merge_indicator config) ;;
     ret merged)
    (fun k => raise (KeyError k)).

(** ** finalizer.py *)

Definition finalize_results (results : list (string * loc)) (config : config)
  : M (list (string * loc)) :=
  let merge_col := merge_indicator config in
  let rename_cols := rename_columns config in
  for_each results
    (fun final item =>
       let key := fst item in
       let df := snd item in
       df_columns <- get_columns df ;;
       let cols := List.filter (fun col => negb (String.eqb col merge_col)) df_columns in
       let cols := if has_col "result" cols then cols else cols ++ ["result"] in
       df <- getitem_cols df cols ;;
       rename_inplace df rename_cols ;;;
       ret (dict_set final key df))
    [].

(** ** reconciler.py *)

Record Reconciler : Type := mkReconciler { self_config : config }.

Definition reconcile (self : Reconciler) (df_internal df_provider : loc)
  : M (list (string * loc)) :=
  merged <- merge_dataframes df_internal df_provider (self_config self) ;;
  results <- classify_merged_rows merged (self_config self) ;;
  final <- finalize_results results (self_config self) ;;
  ret final.

(** ** Running example: the three required columns of the tool *)

Definition demo_config : config :=
  mkConfig ["transaction_reference"] ("_internal", "_provider") "_merge"
    (mkStatus "both" "left_only" "right_only")
    [mkPair "amount" ("_internal", "_provider");
     mkPair "status" ("_internal", "_provider")]
    (mkLabels "Matched" "Only in Internal" "Only in Provider" "Mismatched")
    [("transaction_reference", "Transaction Reference");
     ("amount_internal", "Amount (Internal)");
     ("amount_provider", "Amount (Provider)")].

Definition demo_columns : list string := ["transaction_reference"; "amount"; "status"].

Definition demo_internal : DataFrame :=
  mkDF demo_columns
    [(0, [Str "T1"; Int 10; Str "paid"]);
     (1, [Str "T2"; Int 20; Str "paid"]);
     (2, [Str "T3"; Int 30; Str "paid"])].

Definition demo_provider : DataFrame :=
  mkDF demo_columns
    [(0, [Str "T1"; Int 10; Str "paid"]);
     (1, [Str "T2"; Int 25; Str "paid"]);
     (2, [Str "T4"; Int 40; Str "paid"])].

(** ** Row-level reading of the classifier's masks *)

(** A whole number read as floating point; any other value as it is. *)
Definition read_as_float (v : scalar) : scalar :=
  match v with
  | Int z => Int (to_float64 z)
  | _ => v
  end.

(** The value of a row of [df] under column [c], as the comparison of
    column [c] with column [other] reads it: read as floating point when
    column [c] is a floating-point column, or a column of whole numbers
    compared with a floating-point column; as it stands otherwise. *)
Definition compared_value (df : DataFrame) (vals : list scalar) (c other : string)
  : scalar :=
  let v := cell (columns df) vals c in
  match column_dtype df c, column_dtype df other with
  | float64, _ => read_as_float v
  | int64, float64 => read_as_float v
  | _, _ => v
  end.

Section MarkerPredicates.
Variable cfg : config.
Variable cols : list string.

Definition marker_is (v : string) (vals : list scalar) : bool :=
  scalar_eq (cell cols vals (merge_indicator cfg)) (Str v).

Definition is_only_internal_row (vals : list scalar) : bool :=
  marker_is (left_only (merge_status cfg)) vals.

Definition is_only_provider_row (vals : list scalar) : bool :=
  marker_is (right_only (merge_status cfg)) vals.
End MarkerPredicates.

Section PairPredicates.
Variable cfg : config.
Variable df : DataFrame.

(** The entry of a row in [df[left_col] == df[right_col]] and in
    [df[left_col] != df[right_col]]. *)
Definition pair_equal (vals : list scalar) (pair : comparison_pair) : bool :=
  scalar_eq (compared_value df vals (left_col pair) (right_col pair))
            (compared_value df vals (right_col pair) (left_col pair)).

Definition pair_differs (vals : list scalar) (pair : comparison_pair) : bool :=
  scalar_ne (compared_value df vals (left_col pair) (right_col pair))
            (compared_value df vals (right_col pair) (left_col pair)).

Definition is_matched_row (vals : list scalar) : bool :=
  marker_is cfg (columns df) (both (merge_status cfg)) vals
  && forallb (pair_equal vals) (comparison_pairs cfg).

Definition is_mismatched_row (vals : list scalar) : bool :=
  marker_is cfg (columns df) (both (merge_status cfg)) vals
  && match comparison_pairs cfg with
     | [] => true
     | _ => existsb (pair_differs vals) (comparison_pairs cfg)
     end.
End PairPredicates.

(** The frame [classify_merged_rows] builds for a category: the selected
    rows, tagged. *)
Definition category_frame (df : DataFrame) (keep : list scalar -> bool) (label : string)
  : DataFrame :=
  df_setitem "result" (Str label)
    (mkDF (columns df) (List.filter (fun r => keep (snd r)) (rows df))).

(** The merged frame has the columns the classifier reads. *)
Definition pairs_present (cols : list string) (pairs : list comparison_pair) : bool :=
  forallb (fun p => has_col (left_col p) cols && has_col (right_col p) cols) pairs.

Definition classifiable (cfg : config) (df : DataFrame) : bool :=
  has_col (merge_indicator cfg) (columns df)
  && pairs_present (columns df) (comparison_pairs cfg).

Definition matched_frame (cfg : config) (df : DataFrame) : DataFrame :=
  category_frame df (is_matched_row cfg df) (matched (result_labels cfg)).
Definition only_internal_frame (cfg : config) (df : DataFrame) : DataFrame :=
  category_frame df (is_only_internal_row cfg (columns df))
    (only_internal (result_labels cfg)).
Definition only_provider_frame (cfg : config) (df : DataFrame) : DataFrame :=
  category_frame df (is_only_provider_row cfg (columns df))
    (only_provider (result_labels cfg)).
Definition mismatched_frame (cfg : config) (df : DataFrame) : DataFrame :=
  category_frame df (is_mismatched_row cfg df) (mismatched (result_labels cfg)).

(** The category [key] of a result dictionary [d] holds the index label [i]. *)
Definition in_category (h : heap) (d : list (string * loc)) (key : string) (i : nat)
  : Prop :=
  exists l df, dict_get d key = Some l /\ h !! l = Some df /\ i ∈ index df.

(** ** Objects that a computation leaves alone *)

(** [keeps h0 m Q]: run from any store that extends [h0], the computation
    [m] leaves the objects of [h0] as they are (it may create objects and
    change those created after [h0]), and its value satisfies [Q]. *)
Definition keeps {A} (h0 : heap) (m : M A) (Q : A -> Prop) : Prop :=
  forall h, h0 `prefix_of` h ->
    h0 `prefix_of` (m h).1 /\
    match (m h).2 with Ok a => Q a | Raise _ => True end.

Definition created_after (h0 : heap) (l : loc) : Prop := length h0 <= l.

(** ** The frame the finalizer builds *)

(** The labels [finalize_results] selects: every column but the marker,
    and [result]. *)
Definition finalize_cols (merge_col : string) (df_columns : list string) : list string :=
  let cols := List.filter (fun col => negb (String.eqb col merge_col)) df_columns in
  if has_col "result" cols then cols else cols ++ ["result"].

Definition finalize_frame (cfg : config) (df : DataFrame) : DataFrame :=
  let cols := finalize_cols (merge_indicator cfg) (columns df) in
  df_rename (rename_columns cfg)
    (mkDF cols (map (fun r => (fst r, map (cell (columns df) (snd r)) cols)) (rows df))).

Definition dict_set_all {V} (d : list (string * V)) (kvs : list (string * V))
  : list (string * V) :=
  fold_left (fun d kv => dict_set d (fst kv) (snd kv)) kvs d.

(** The cells of a row without the cell under column [c]. *)
Definition without_column (c : string) (cols : list string) (vals : list scalar)
  : list scalar :=
  map snd (List.filter (fun cv => negb (String.eqb (fst cv) c)) (zip cols vals)).

(** ** What the merge needs and what it builds *)

(** The conditions on the labels under which pandas performs the merge:
    the keys are columns of both frames, the marker label and the two
    working labels of pandas are free, there is a key, and the suffixes
    tell the labels apart. *)
Definition merge_ready (on : list string) (sfx : string * string) (ind : string)
    (lcols rcols : list string) : bool :=
  forallb (fun k => has_col k rcols && has_col k lcols) on
  && negb (existsb (fun c => has_col c lcols || has_col c rcols)
             [ind; "_left_indicator"; "_right_indicator"])
  && match on with [] => false | _ => true end
  && negb (existsb (overlapping on lcols rcols) lcols
           && String.eqb (fst sfx) "" && String.eqb (snd sfx) "")
  && bool_decide (NoDup (merge_labels on sfx lcols rcols)).

(** The conditions under which pandas performs the merge: those on the
    labels, and key columns of types that can be matched. *)
Definition mergeable (cfg : config) (left right : DataFrame) : bool :=
  merge_ready (merge_key cfg) (merge_suffixes cfg) (merge_indicator cfg)
    (columns left) (columns right)
  && negb (key_types_clash (merge_key cfg) left right).

Definition merged_frame (cfg : config) (left right : DataFrame) : DataFrame :=
  let on := merge_key cfg in
  let lcols := columns left in
  let rcols := columns right in
  mkDF (merge_labels on (merge_suffixes cfg) lcols rcols ++ [merge_indicator cfg])
    (number_rows (joined_rows on left right)).








(** The comparison columns exist in both inputs under the base label, are
    not keys, and are suffixed as the merge suffixes them. *)
Definition comparison_ready (cfg : config) (lcols rcols : list string) : bool :=
  forallb (fun p => has_col (base p) lcols && has_col (base p) rcols
                    && negb (has_col (base p) (merge_key cfg))
                    && bool_decide (suffixes p = merge_suffixes cfg))
    (comparison_pairs cfg).

(** ** Statements about the classifier *)

Definition exactly_one (a b c d : Prop) : Prop :=
  (a /\ ~ b /\ ~ c /\ ~ d) \/ (~ a /\ b /\ ~ c /\ ~ d)
  \/ (~ a /\ ~ b /\ c /\ ~ d) \/ (~ a /\ ~ b /\ ~ c /\ d).

(** The three marker values of the configuration are different values. *)
Definition status_distinct (s : merge_status_t) : Prop :=
  both s <> left_only s /\ both s <> right_only s /\ left_only s <> right_only s.

(** The two values of a comparison pair in a row of [df]: the value under
    the base label with the left suffix and the value under the base label
    with the right suffix, each as the comparison of the two columns reads
    it. *)
Definition pair_values (df : DataFrame) (vals : list scalar) (pair : comparison_pair)
  : scalar * scalar :=
  let left_label := base pair +:+ fst (suffixes pair) in
  let right_label := base pair +:+ snd (suffixes pair) in
  (compared_value df vals left_label right_label,
   compared_value df vals right_label left_label).

(** Two values are equal: they are the same value, and it is not missing. *)
Definition equal_values (ab : scalar * scalar) : Prop :=
  fst ab = snd ab /\ fst ab <> NaN.

(** Every comparison pair of the row has equal values. *)
Definition pairs_all_equal (cfg : config) (df : DataFrame) (vals : list scalar)
  : Prop :=
  forall pair, pair ∈ comparison_pairs cfg -> equal_values (pair_values df vals pair).

(** The partition of one merged row [(i, vals)] of [df] by the result [res]
    of the classifier in the store [h]. *)
Definition row_partitioned (cfg : config) (df : DataFrame) (h : heap)
    (res : list (string * loc)) (i : nat) (vals : list scalar) : Prop :=
  let mk := cell (columns df) vals (merge_indicator cfg) in
  let st := merge_status cfg in
  ~ (in_category h res "matched" i /\ in_category h res "mismatched" i)
  /\ (in_category h res "matched" i \/ in_category h res "mismatched" i
      <-> mk = Str (both st))
  /\ (in_category h res "only_internal" i <-> mk = Str (left_only st))
  /\ (in_category h res "only_provider" i <-> mk = Str (right_only st))
  /\ (status_distinct st ->
      mk ∈ [Str (both st); Str (left_only st); Str (right_only st)] ->
      exactly_one (in_category h res "matched" i)
                  (in_category h res "only_internal" i)
                  (in_category h res "only_provider" i)
                  (in_category h res "mismatched" i)).

(** ** Further example inputs *)

Definition demo_merged : DataFrame :=
  Eval vm_compute in merged_frame demo_config demo_internal demo_provider.

(** The configuration of the tool with an empty comparison-pair list. *)
Definition no_pairs_config : config :=
  mkConfig (merge_key demo_config) (merge_suffixes demo_config)
    (merge_indicator demo_config) (merge_status demo_config) []
    (result_labels demo_config) (rename_columns demo_config).

(** One transaction on both sides whose amount is missing on both sides. *)
Definition missing_amount_merged : DataFrame :=
  Eval vm_compute in
    merged_frame demo_config
      (mkDF demo_columns [(0, [Str "T5"; NaN; Str "paid"])])
      (mkDF demo_columns [(0, [Str "T5"; NaN; Str "paid"])]).




(** ** Statements about the merge and the finalizer *)



(** [df'] has the rows of [df], in the same order and under the same index
    labels, without the marker cell; its labels are the labels of [df]
    without the marker, renamed; [result] is among them. *)
Definition finalized_from (cfg : config) (df df' : DataFrame) : Prop :=
  let kept := List.filter (fun c => negb (String.eqb c (merge_indicator cfg)))
                (columns df) in
  columns df' = map (rename_label (rename_columns cfg)) kept
  /\ "result" ∈ kept
  /\ Forall2 (fun r r' => fst r' = fst r /\
                snd r' = without_column (merge_indicator cfg) (columns df) (snd r))
       (rows df) (rows df').

(** A table as the finalizer leaves it: no marker column, a [result]
    column, and no label that the rename map would still change. *)
Definition already_finalized (cfg : config) (df : DataFrame) : Prop :=
  wf_frame df
  /\ (merge_indicator cfg ∉ columns df)
  /\ "result" ∈ columns df
  /\ forall c, c ∈ columns df -> rename_label (rename_columns cfg) c = c.

(** ** Example inputs for the merge and the finalizer *)



(** A provider statement whose key column has another label. *)
Definition provider_without_key : DataFrame :=
  mkDF ["reference"; "amount"; "status"] [(0, [Str "T1"; Int 10; Str "paid"])].

Definition empty_internal : DataFrame := mkDF demo_columns [].
Definition empty_provider : DataFrame := mkDF demo_columns [].

Definition demo_classified : list DataFrame :=
  Eval vm_compute in
    [matched_frame demo_config demo_merged; only_internal_frame demo_config demo_merged;
     only_provider_frame demo_config demo_merged; mismatched_frame demo_config demo_merged].

Definition demo_results : list (string * loc) :=
  [("matched", 0); ("only_internal", 1); ("only_provider", 2); ("mismatched", 3)].

Definition demo_finalized : list DataFrame :=
  Eval vm_compute in map (finalize_frame demo_config) demo_classified.

(** The number of rows of every table of a result, or nothing if the run
    raised. *)
Definition category_sizes (out : list DataFrame * result (list (string * loc)))
  : option (list (string * option nat)) :=
  match out with
  | (h, Ok d) => Some (map (fun kv => (fst kv, option_map (fun df => length (rows df))
                                                 (h !! snd kv))) d)
  | (_, Raise _) => None
  end.

Definition one_row (amount : Z) (ref : string) : DataFrame :=
  mkDF demo_columns [(0, [Str ref; Int amount; Str "paid"])].

(** ** Further statements about the classifier *)

(** The table stored under [key] by a result dictionary. *)
Definition table_of (h : heap) (d : list (string * loc)) (key : string)
  : option DataFrame :=
  match dict_get d key with
  | Some l => h !! l
  | None => None
  end.

(** The label the configuration gives to a category. *)
Definition category_label (cfg : config) (key : string) : option string :=
  dict_get [("matched", matched (result_labels cfg));
            ("only_internal", only_internal (result_labels cfg));
            ("only_provider", only_provider (result_labels cfg));
            ("mismatched", mismatched (result_labels cfg))] key.

(** The first column the classifier reads and does not find: the marker,
    then for every pair the left and the right column. *)
Fixpoint first_missing_pair_col (cols : list string) (pairs : list comparison_pair)
  : option string :=
  match pairs with
  | [] => None
  | p :: ps =>
      if negb (has_col (left_col p) cols) then Some (left_col p)
      else if negb (has_col (right_col p) cols) then Some (right_col p)
      else first_missing_pair_col cols ps
  end.

Definition first_unreadable (cfg : config) (cols : list string) : option string :=
  if has_col (merge_indicator cfg) cols
  then first_missing_pair_col cols (comparison_pairs cfg)
  else Some (merge_indicator cfg).

(** The labels the classifier reads. *)
Definition classifier_columns (cfg : config) : list string :=
  merge_indicator cfg
  :: flat_map (fun p => [left_col p; right_col p]) (comparison_pairs cfg).

(** How many rows of [df] carry the marker value [v]. *)
Definition count_marker (cfg : config) (df : DataFrame) (v : string) : nat :=
  length (List.filter (fun r => marker_is cfg (columns df) v (snd r)) (rows df)).

(** The four keys of a classification, in the order of the dictionary. *)
Definition category_keys : list string :=
  ["matched"; "only_internal"; "only_provider"; "mismatched"].

(** ** Further statements about the merge *)



(** A column of numbers: no value is text.  A column of text: some value
    is text and none is a whole number. *)
Definition numbers_only (vals : series) : Prop :=
  forall v, v ∈ vals -> forall s, v <> Str s.

Definition text_only (vals : series) : Prop :=
  (exists s, Str s ∈ vals) /\ forall v, v ∈ vals -> forall z, v <> Int z.

(** An internal export whose transaction references are numbers. *)
Definition numbered_internal : DataFrame :=
  mkDF demo_columns
    [(0, [Int 1; Int 10; Str "paid"]);
     (1, [Int 2; Int 20; Str "paid"])].

(** ** app.py: validation of an uploaded file *)

Definition REQUIRED_COLUMNS : list string :=
  ["transaction_reference"; "amount"; "status"].

(** The keys under which the page reads the results. *)
Definition display_labels : list string :=
  ["matched"; "only_internal"; "only_provider"; "mismatched"].

(** [df.empty]: some axis has length zero. *)
Definition df_empty (df : DataFrame) : bool :=
  match rows df, columns df with
  | [], _ => true
  | _, [] => true
  | _, _ => false
  end.

(** The messages the page shows, by kind (their text is left out). *)
Inductive st_call : Type :=
  | st_error
  | st_info
  | st_success.

(** [validate_file(file, label)].  [parsed] is what [pd.read_csv(file)]
    does on the uploaded file: it returns a new table or raises. *)
Definition validate_file (parsed : result DataFrame) (label : string)
  : M (list st_call * option loc) :=
  match parsed with
  | Raise _ => ret ([st_error], None)
  | Ok table =>
      df <- alloc table ;;
      d <- load df ;;
      if df_empty d then ret ([st_error], None)
      else
        df_columns <- get_columns df ;;
        let missing_cols :=
          List.filter (fun col => negb (has_col col df_columns)) REQUIRED_COLUMNS in
        match missing_cols with
        | _ :: _ => ret ([st_error; st_info], None)
        | [] => ret ([st_success], Some df)
        end
  end.


(** A provider statement without the [amount] column. *)
Definition provider_without_amount : DataFrame :=
  mkDF ["transaction_reference"; "status"] [(0, [Str "T1"; Str "paid"])].

(** * Proofs *)

(** ** Element-wise comparison *)

Lemma scalar_ne_negb a b : scalar_ne a b = negb (scalar_eq a b).
Proof. destruct a, b; reflexivity. Qed.

Lemma scalar_eq_true a b : scalar_eq a b = true <-> a = b /\ a <> NaN.
Proof.
  destruct a, b; simpl; split; try (intros [? ?]; congruence); try discriminate.
  - intros H%Z.eqb_eq. split; congruence.
  - intros [[= ->] _]. apply Z.eqb_refl.
  - intros [H1%Z.eqb_eq H2%Pos.eqb_eq]%andb_prop. split; congruence.
  - intros [[= -> ->] _]. by rewrite Z.eqb_refl, Pos.eqb_refl.
  - intros H%String.eqb_eq. split; congruence.
  - intros [[= ->] _]. apply String.eqb_refl.
Qed.

(** Up to [2^53] a whole number is its own [float64]. *)
Lemma to_float64_exact z : (Z.abs z <= 2 ^ 53)%Z -> to_float64 z = z.
Proof.
  intros Hz. unfold to_float64. by rewrite (proj2 (Z.leb_le _ _) Hz).
Qed.

(** The rounding agrees with the IEEE 754 model of the standard library
    (on the boundaries of the ranges in which one, two, ten bits are
    dropped). *)
Example to_float64_binary64 :
  forallb (fun z => Z.eqb (to_float64 z) (to_binary64 z))
    [0; 1; -1; 10; 2 ^ 53 - 1; 2 ^ 53; 2 ^ 53 + 1; 2 ^ 53 + 2; 2 ^ 53 + 3;
     2 ^ 54 - 1; 2 ^ 54; 2 ^ 54 + 1; 2 ^ 54 + 2; 2 ^ 54 + 3; 2 ^ 54 + 5;
     2 ^ 54 + 6; 2 ^ 54 + 7; 2 ^ 55 + 4; 2 ^ 55 + 11; 2 ^ 55 + 12; 2 ^ 55 + 13;
     2 ^ 62 + 255; 2 ^ 62 + 256; 2 ^ 62 + 257; 2 ^ 62 + 767; 2 ^ 62 + 768;
     2 ^ 62 + 769; 2 ^ 63 - 513; 2 ^ 63 - 512; 2 ^ 63 - 511; 2 ^ 63 - 1;
     123456789012345678; - (2 ^ 53 + 1); - (2 ^ 53 + 3); - (2 ^ 60 + 127);
     - (2 ^ 60 + 128); - (2 ^ 60 + 129); - (2 ^ 60 + 384); - 2 ^ 63]%Z
  = true.
Proof. vm_compute. reflexivity. Qed.

Lemma scalar_eq_NaN_l b : scalar_eq NaN b = false.
Proof. reflexivity. Qed.

Lemma scalar_eq_Str s t : scalar_eq (Str s) (Str t) = true <-> s = t.
Proof. simpl. apply String.eqb_eq. Qed.

(** ** Columns and cells *)

Lemma col_pos_Some_lt c cols p : col_pos c cols = Some p -> p < length cols.
Proof.
  revert p. induction cols as [|c' cols IH]; simpl; intros p; [discriminate|].
  destruct (String.eqb c c').
  - intros [= <-]. lia.
  - destruct (col_pos c cols) as [q|]; simpl; [|discriminate].
    intros [= <-]. specialize (IH q eq_refl). lia.
Qed.

Lemma col_pos_Some_lookup c cols p : col_pos c cols = Some p -> cols !! p = Some c.
Proof.
  revert p. induction cols as [|c' cols IH]; simpl; intros p; [discriminate|].
  destruct (String.eqb c c') eqn:E.
  - intros [= <-]. apply String.eqb_eq in E. by subst.
  - destruct (col_pos c cols) as [q|]; simpl; [|discriminate].
    intros [= <-]. simpl. by apply IH.
Qed.

Lemma has_col_elem_of c cols : has_col c cols = true <-> c ∈ cols.
Proof.
  unfold has_col. induction cols as [|c' cols IH]; simpl.
  - split; [discriminate|]. by intros ?%elem_of_nil.
  - rewrite elem_of_cons. destruct (String.eqb c c') eqn:E.
    + apply String.eqb_eq in E. subst. split; [by left|done].
    + apply String.eqb_neq in E.
      destruct (col_pos c cols); simpl in *.
      * split; [intros _; right; by apply IH|done].
      * split; [discriminate|]. intros [?|H]; [done|]. by apply IH in H.
Qed.

Lemma has_col_false c cols : has_col c cols = false <-> c ∉ cols.
Proof.
  rewrite <- has_col_elem_of. destruct (has_col c cols); split; congruence.
Qed.

Lemma df_getitem_col_has df c :
  has_col c (columns df) = true ->
  df_getitem_col df c = Ok (map (fun r => cell (columns df) (snd r) c) (rows df)).
Proof.
  unfold has_col, df_getitem_col, cell.
  destruct (col_pos c (columns df)); [reflexivity|discriminate].
Qed.

Lemma df_getitem_col_missing df c :
  has_col c (columns df) = false -> df_getitem_col df c = Raise (KeyError c).
Proof.
  unfold has_col, df_getitem_col.
  destruct (col_pos c (columns df)); [discriminate|reflexivity].
Qed.

(** ** Masks are row predicates *)

Lemma select_rows_map (P : row -> bool) rs :
  select_rows rs (map P rs) = List.filter P rs.
Proof.
  induction rs as [|r rs IH]; simpl; [reflexivity|].
  destruct (P r); by rewrite IH.
Qed.

Lemma zip_with_map_same {A B C D} (f : B -> C -> D) (g : A -> B) (k : A -> C) xs :
  zip_with f (map g xs) (map k xs) = map (fun x => f (g x) (k x)) xs.
Proof. induction xs; simpl; congruence. Qed.

(** ** Running the engine's statements *)

Lemma bind_run {A B} (m : M A) (k : A -> M B) h h' a :
  m h = (h', Ok a) -> bind m k h = k a h'.
Proof. unfold bind. by intros ->. Qed.

Lemma bind_raise {A B} (m : M A) (k : A -> M B) h h' e :
  m h = (h', Raise e) -> bind m k h = (h', Raise e).
Proof. unfold bind. by intros ->. Qed.

Lemma getitem_col_run h l df c :
  h !! l = Some df -> getitem_col l c h = (h, df_getitem_col df c).
Proof. intros H. unfold getitem_col, bind, load, lift. by rewrite H. Qed.

Lemma getitem_col_ok h l df c :
  h !! l = Some df -> has_col c (columns df) = true ->
  getitem_col l c h = (h, Ok (map (fun r => cell (columns df) (snd r) c) (rows df))).
Proof. intros H Hc. by rewrite (getitem_col_run _ _ _ _ H), df_getitem_col_has. Qed.

Lemma lookup_snoc_length (h : heap) (x : DataFrame) : (h ++ [x]) !! length h = Some x.
Proof. by apply list_lookup_middle. Qed.

Lemma insert_snoc_length (h : heap) (x y : DataFrame) :
  <[length h := y]> (h ++ [x]) = h ++ [y].
Proof.
  rewrite insert_app_r_alt by lia. by rewrite Nat.sub_diag.
Qed.

Lemma lookup_ext (h ext : heap) k x :
  ext !! k = Some x -> (h ++ ext) !! (length h + k) = Some x.
Proof. intros H. by rewrite lookup_app_r, Nat.add_comm, Nat.add_sub by lia. Qed.

(** [c = merged[mask].copy(); c['result'] = v]: two new objects, the
    selection and its tagged copy; [merged] itself is only read. *)
Lemma select_copy_tag_run {B} h m df mk v (k : loc -> M B) :
  h !! m = Some df ->
  (sel <- getitem_mask m mk ;; c <- copy sel ;; setitem c "result" v ;;; k c) h
  = k (S (length h))
      (h ++ [df_getitem_mask df mk; df_setitem "result" v (df_getitem_mask df mk)]).
Proof.
  intros H. unfold bind at 1. unfold getitem_mask, bind, load, alloc. rewrite H.
  unfold copy, bind, load, alloc. rewrite lookup_snoc_length.
  unfold setitem, modify.
  assert (E : length (h ++ [df_getitem_mask df mk]) = S (length h))
    by (rewrite length_app; simpl; lia).
  rewrite lookup_snoc_length, insert_snoc_length, <- app_assoc, E.
  reflexivity.
Qed.

Lemma tag_select_category df (P : row -> bool) keep label :
  (forall r, P r = keep (snd r)) ->
  df_setitem "result" (Str label) (df_getitem_mask df (map P (rows df)))
  = category_frame df keep label.
Proof.
  intros HP. unfold category_frame, df_getitem_mask.
  rewrite select_rows_map. do 2 f_equal. by apply List.filter_ext.
Qed.

(** ** Comparing two columns of a frame *)

Lemma held_read d v :
  held d v = match d with float64 => read_as_float v | _ => v end.
Proof. by destruct d, v. Qed.

Lemma compared_value_held df vals c c' :
  compared_value df vals c c'
  = held (promote (dtype_of (map (fun r : row => cell (columns df) (snd r) c) (rows df)))
                  (dtype_of (map (fun r : row => cell (columns df) (snd r) c') (rows df))))
      (cell (columns df) vals c).
Proof.
  unfold compared_value, column_dtype, column_values. rewrite held_read.
  by destruct (dtype_of _), (dtype_of _).
Qed.

(** The comparison reads a value as it stands, unless it is a whole
    number beyond [2^53] and a floating-point column is involved. *)
Lemma compared_value_exact df vals c c' :
  (forall z, cell (columns df) vals c = Int z -> (Z.abs z <= 2 ^ 53)%Z) ->
  compared_value df vals c c' = cell (columns df) vals c.
Proof.
  intros Hz. unfold compared_value, read_as_float.
  destruct (cell (columns df) vals c) as [|z| |] eqn:E; try by repeat case_match.
  rewrite (to_float64_exact z) by (by apply Hz). by repeat case_match.
Qed.

Lemma compared_value_same_type df vals c c' :
  column_dtype df c = column_dtype df c' -> column_dtype df c <> float64 ->
  compared_value df vals c c' = cell (columns df) vals c.
Proof.
  unfold compared_value. intros <- Hd. by destruct (column_dtype df c).
Qed.

(** [df[c] == df[c']], row by row. *)
Lemma series_eq_columns df c c' :
  series_eq (map (fun r => cell (columns df) (snd r) c) (rows df))
            (map (fun r => cell (columns df) (snd r) c') (rows df))
  = map (fun r : row => scalar_eq (compared_value df (snd r) c c')
                          (compared_value df (snd r) c' c)) (rows df).
Proof.
  unfold series_eq. rewrite !map_map, zip_with_map_same.
  apply map_ext. intros r. by rewrite !compared_value_held.
Qed.

Lemma series_ne_columns df c c' :
  series_ne (map (fun r => cell (columns df) (snd r) c) (rows df))
            (map (fun r => cell (columns df) (snd r) c') (rows df))
  = map (fun r : row => scalar_ne (compared_value df (snd r) c c')
                          (compared_value df (snd r) c' c)) (rows df).
Proof.
  unfold series_ne. rewrite !map_map, zip_with_map_same.
  apply map_ext. intros r. by rewrite !compared_value_held.
Qed.

(** ** The classifier, run on a store *)

Section ClassifierRun.
Variable cfg : config.
Variable m : loc.
Variable df : DataFrame.

Let cols := columns df.

Lemma match_loop_run h pairs (g : row -> bool) :
  h !! m = Some df ->
  pairs_present cols pairs = true ->
  for_each pairs
    (fun match_cond pair =>
       l <- getitem_col m (left_col pair) ;;
       r <- getitem_col m (right_col pair) ;;
       ret (mask_and match_cond (series_eq l r)))
    (map g (rows df)) h
  = (h, Ok (map (fun r => g r && forallb (pair_equal df (snd r)) pairs) (rows df))).
Proof.
  intros Hm. revert g. induction pairs as [|p ps IH]; intros g Hp; simpl.
  - unfold ret. do 2 f_equal. apply map_ext. intros r. by rewrite andb_true_r.
  - simpl in Hp. apply andb_prop in Hp as [Hlr Hps].
    apply andb_prop in Hlr as [Hl Hr].
    erewrite bind_run; cycle 1.
    { erewrite bind_run by (by apply getitem_col_ok).
      erewrite bind_run by (by apply getitem_col_ok).
      unfold ret, mask_and. rewrite series_eq_columns, !zip_with_map_same.
      reflexivity. }
    rewrite (IH _ Hps). do 2 f_equal. apply map_ext. intros r.
    by rewrite andb_assoc.
Qed.

Lemma mismatch_loop_run h pairs (acc : list mask) :
  h !! m = Some df ->
  pairs_present cols pairs = true ->
  for_each pairs
    (fun mismatch_pairs pair =>
       l <- getitem_col m (left_col pair) ;;
       r <- getitem_col m (right_col pair) ;;
       ret (mismatch_pairs ++ [series_ne l r]))
    acc h
  = (h, Ok (acc ++ map (fun p => map (fun r => pair_differs df (snd r) p) (rows df))
                     pairs)).
Proof.
  intros Hm. revert acc. induction pairs as [|p ps IH]; intros acc Hp; simpl.
  - unfold ret. by rewrite app_nil_r.
  - simpl in Hp. apply andb_prop in Hp as [Hlr Hps].
    apply andb_prop in Hlr as [Hl Hr].
    erewrite bind_run; cycle 1.
    { erewrite bind_run by (by apply getitem_col_ok).
      erewrite bind_run by (by apply getitem_col_ok).
      unfold ret. rewrite series_ne_columns. reflexivity. }
    rewrite (IH _ Hps), <- app_assoc. reflexivity.
Qed.

Lemma fold_mask_or (f : comparison_pair -> row -> bool) ps (g : row -> bool) :
  fold_left mask_or (map (fun p => map (f p) (rows df)) ps) (map g (rows df))
  = map (fun r => g r || existsb (fun p => f p r) ps) (rows df).
Proof.
  revert g. induction ps as [|p ps IH]; intros g; simpl.
  - apply map_ext. intros r. by rewrite orb_false_r.
  - unfold mask_or at 2. rewrite zip_with_map_same, IH.
    apply map_ext. intros r. by rewrite orb_assoc.
Qed.

Lemma mismatch_mask_rows pairs (g : row -> bool) :
  match map (fun p => map (fun r : row => pair_differs df (snd r) p) (rows df)) pairs with
  | [] => map g (rows df)
  | first :: rest => mask_and (map g (rows df)) (fold_left mask_or rest first)
  end
  = map (fun r => g r && match pairs with
                         | [] => true
                         | _ => existsb (pair_differs df (snd r)) pairs
                         end) (rows df).
Proof.
  destruct pairs as [|p ps]; simpl.
  - apply map_ext. intros r. by rewrite andb_true_r.
  - rewrite (fold_mask_or (fun p r => pair_differs df (snd r) p)).
    unfold mask_and. by rewrite zip_with_map_same.
Qed.

(** On a merged frame that has the columns it reads, the classifier
    returns the four categories as new objects holding these frames, and
    leaves the objects that existed before as they were. *)
Lemma classify_merged_rows_run h :
  h !! m = Some df ->
  classifiable cfg df = true ->
  exists ext l1 l2 l3 l4,
    classify_merged_rows m cfg h
    = (h ++ ext, Ok [("matched", l1); ("only_internal", l2);
                     ("only_provider", l3); ("mismatched", l4)])
    /\ (h ++ ext) !! l1 = Some (matched_frame cfg df)
    /\ (h ++ ext) !! l2 = Some (only_internal_frame cfg df)
    /\ (h ++ ext) !! l3 = Some (only_provider_frame cfg df)
    /\ (h ++ ext) !! l4 = Some (mismatched_frame cfg df).
Proof.
  intros Hm Hc. unfold classifiable in Hc. apply andb_prop in Hc as [Hind Hpairs].
  fold cols in Hind. change (pairs_present cols (comparison_pairs cfg) = true) in Hpairs.
  unfold classify_merged_rows.
  (* Matched *)
  erewrite bind_run by (by apply getitem_col_ok).
  unfold series_eq_scalar. rewrite map_map.
  erewrite bind_run by (by apply match_loop_run).
  rewrite (select_copy_tag_run _ _ df) by done.
  rewrite (tag_select_category df _ (is_matched_row cfg df) _ (fun _ => eq_refl)).
  set (h1 := h ++ _).
  assert (Hm1 : h1 !! m = Some df) by (by apply lookup_app_l_Some).
  (* Only internal *)
  erewrite bind_run by (by apply getitem_col_ok).
  rewrite map_map, (select_copy_tag_run _ _ df) by done.
  rewrite (tag_select_category df _ (is_only_internal_row cfg cols) _ (fun _ => eq_refl)).
  set (h2 := h1 ++ _).
  assert (Hm2 : h2 !! m = Some df) by (by apply lookup_app_l_Some).
  (* Only provider *)
  erewrite bind_run by (by apply getitem_col_ok).
  rewrite map_map, (select_copy_tag_run _ _ df) by done.
  rewrite (tag_select_category df _ (is_only_provider_row cfg cols) _ (fun _ => eq_refl)).
  set (h3 := h2 ++ _).
  assert (Hm3 : h3 !! m = Some df) by (by apply lookup_app_l_Some).
  (* Mismatched *)
  erewrite bind_run by (by apply getitem_col_ok).
  rewrite map_map.
  erewrite bind_run by (by apply mismatch_loop_run).
  rewrite app_nil_l, mismatch_mask_rows, (select_copy_tag_run _ _ df) by done.
  rewrite (tag_select_category df _ (is_mismatched_row cfg df) _ (fun _ => eq_refl)).
  unfold ret. subst h1 h2 h3. rewrite !length_app, <- !app_assoc. simpl.
  eexists _, _, _, _, _. split; [reflexivity|].
  repeat split.
  - replace (S (length h)) with (length h + 1) by lia. by apply lookup_ext.
  - replace (S (length h + 2)) with (length h + 3) by lia. by apply lookup_ext.
  - replace (S (length h + 2 + 2)) with (length h + 5) by lia. by apply lookup_ext.
  - replace (S (length h + 2 + 2 + 2)) with (length h + 7) by lia. by apply lookup_ext.
Qed.
End ClassifierRun.

(** ** Membership in a category *)

Lemma index_df_setitem c v df : index (df_setitem c v df) = index df.
Proof.
  unfold df_setitem, index. destruct (col_pos c (columns df)); simpl;
    rewrite map_map; by apply map_ext.
Qed.

Lemma index_label_unique (rs : list row) i v1 v2 :
  NoDup (map fst rs) -> (i, v1) ∈ rs -> (i, v2) ∈ rs -> v1 = v2.
Proof.
  induction rs as [|[j w] rs IH]; simpl; intros Hnd H1 H2.
  - by apply elem_of_nil in H1.
  - apply NoDup_cons in Hnd as [Hj Hnd].
    apply elem_of_cons in H1 as [[= -> ->]|H1], H2 as [[= ->]|H2]; auto.
    + exfalso. apply Hj, list_elem_of_fmap. by exists (j, v2).
    + subst. exfalso. apply Hj, list_elem_of_fmap. by exists (j, v1).
Qed.

Lemma index_category_frame df keep label i vals :
  NoDup (index df) -> (i, vals) ∈ rows df ->
  i ∈ index (category_frame df keep label) <-> keep vals = true.
Proof.
  intros Hnd Hin. unfold category_frame. rewrite index_df_setitem.
  unfold index; simpl. rewrite list_elem_of_fmap. split.
  - intros ([j vs] & -> & Hf). apply list_elem_of_In, filter_In in Hf as [Hf Hk].
    apply list_elem_of_In in Hf. simpl in *.
    by rewrite (index_label_unique (rows df) j vals vs).
  - intros Hk. exists (i, vals). split; [done|].
    apply list_elem_of_In, filter_In. split; [by apply list_elem_of_In|done].
Qed.

Lemma in_category_frame h d key l fr i :
  dict_get d key = Some l -> h !! l = Some fr ->
  in_category h d key i <-> i ∈ index fr.
Proof.
  intros Hd Hl. unfold in_category. split.
  - intros (l' & fr' & Hd' & Hl' & Hi). congruence.
  - intros Hi. by exists l, fr.
Qed.

(** The classifier returns, and a row of the merged frame is in a category
    exactly when the category's row predicate holds of it. *)
Lemma classify_membership cfg h m df :
  h !! m = Some df ->
  classifiable cfg df = true ->
  NoDup (index df) ->
  exists h' res,
    classify_merged_rows m cfg h = (h', Ok res) /\
    forall i vals, (i, vals) ∈ rows df ->
      (in_category h' res "matched" i <-> is_matched_row cfg df vals = true) /\
      (in_category h' res "only_internal" i
         <-> is_only_internal_row cfg (columns df) vals = true) /\
      (in_category h' res "only_provider" i
         <-> is_only_provider_row cfg (columns df) vals = true) /\
      (in_category h' res "mismatched" i
         <-> is_mismatched_row cfg df vals = true).
Proof.
  intros Hm Hc Hnd.
  destruct (classify_merged_rows_run cfg m df h Hm Hc)
    as (ext & l1 & l2 & l3 & l4 & Hrun & H1 & H2 & H3 & H4).
  eexists (h ++ ext), _. split; [exact Hrun|]. intros i vals Hin.
  repeat split.
  all: try (intros Hi; eapply index_category_frame; [exact Hnd|exact Hin|];
            eapply in_category_frame; [| |exact Hi]; [reflexivity|eassumption]).
  all: intros Hk; eapply in_category_frame; [reflexivity|eassumption|];
       by eapply index_category_frame.
Qed.

(** ** Row predicates in words *)

Lemma marker_is_true cfg cols v vals :
  marker_is cfg cols v vals = true <-> cell cols vals (merge_indicator cfg) = Str v.
Proof.
  unfold marker_is. rewrite scalar_eq_true. split; [by intros [? _]|].
  intros ->. split; [done|discriminate].
Qed.

Lemma pair_equal_true df vals pair :
  pair_equal df vals pair = true <-> equal_values (pair_values df vals pair).
Proof. unfold pair_equal. by rewrite scalar_eq_true. Qed.

Lemma is_matched_row_true cfg df vals :
  is_matched_row cfg df vals = true <->
  cell (columns df) vals (merge_indicator cfg) = Str (both (merge_status cfg)) /\
  pairs_all_equal cfg df vals.
Proof.
  unfold is_matched_row, pairs_all_equal.
  rewrite andb_true_iff, marker_is_true, forallb_forall.
  split; intros [Hb Hp]; (split; [done|]); intros pair Hin.
  - apply pair_equal_true, Hp. by apply list_elem_of_In.
  - apply pair_equal_true, Hp. by apply list_elem_of_In.
Qed.

Lemma existsb_pair_differs df vals pairs :
  existsb (pair_differs df vals) pairs = negb (forallb (pair_equal df vals) pairs).
Proof.
  induction pairs as [|p ps IH]; simpl; [reflexivity|].
  rewrite IH, negb_andb. unfold pair_differs, pair_equal.
  by rewrite scalar_ne_negb.
Qed.

(** With at least one comparison pair, the mismatched rows are the
    [both]-rows that are not matched. *)
Lemma is_mismatched_row_nonempty cfg df vals :
  comparison_pairs cfg <> [] ->
  is_mismatched_row cfg df vals
  = marker_is cfg (columns df) (both (merge_status cfg)) vals
    && negb (is_matched_row cfg df vals).
Proof.
  intros Hne. unfold is_mismatched_row, is_matched_row.
  destruct (comparison_pairs cfg) as [|p ps] eqn:E; [done|].
  rewrite existsb_pair_differs.
  by destruct (marker_is cfg (columns df) (both (merge_status cfg)) vals).
Qed.

(** Without comparison pairs the [if mismatch_pairs:] guard leaves the
    mismatch mask at "marker is both". *)
Lemma is_mismatched_row_empty cfg df vals :
  comparison_pairs cfg = [] ->
  is_mismatched_row cfg df vals
  = marker_is cfg (columns df) (both (merge_status cfg)) vals
  /\ is_matched_row cfg df vals
     = marker_is cfg (columns df) (both (merge_status cfg)) vals.
Proof.
  intros E. unfold is_mismatched_row, is_matched_row. rewrite E. simpl.
  by rewrite andb_true_r.
Qed.

(** ** Objects left alone: rules *)

Lemma keeps_ret {A} h0 (a : A) (Q : A -> Prop) : Q a -> keeps h0 (ret a) Q.
Proof. intros HQ h Hh. by split. Qed.

Lemma keeps_raise {A} h0 e (Q : A -> Prop) : keeps h0 (raise e) Q.
Proof. intros h Hh. by split. Qed.

Lemma keeps_weaken {A} h0 (m : M A) (Q R : A -> Prop) :
  keeps h0 m Q -> (forall a, Q a -> R a) -> keeps h0 m R.
Proof.
  intros Hm HQR h Hh. destruct (Hm h Hh) as [Hp Hv]. split; [done|].
  destruct ((m h).2); auto.
Qed.

Lemma keeps_bind {A B} h0 (m : M A) (k : A -> M B) Q R :
  keeps h0 m Q -> (forall a, Q a -> keeps h0 (k a) R) -> keeps h0 (bind m k) R.
Proof.
  intros Hm Hk h Hh. destruct (Hm h Hh) as [Hp Hv]. unfold bind.
  destruct (m h) as [h' [a|e]]; simpl in *; [|by split].
  by apply Hk.
Qed.

Lemma keeps_lift {A} h0 (r : result A) : keeps h0 (lift r) (fun _ => True).
Proof. intros h Hh. split; [done|]. simpl. by destruct r. Qed.

Lemma keeps_load h0 l : keeps h0 (load l) (fun _ => True).
Proof. intros h Hh. unfold load. case_match; simpl; by split. Qed.

Lemma keeps_alloc h0 df : keeps h0 (alloc df) (created_after h0).
Proof.
  intros h Hh. unfold alloc, created_after; simpl. split.
  - etrans; [exact Hh|]. by apply prefix_app_r.
  - by apply prefix_length.
Qed.

Lemma keeps_modify h0 l f :
  created_after h0 l -> keeps h0 (modify l f) (fun _ => True).
Proof.
  intros Hl h [ext ->]. unfold modify. case_match; cbn [fst snd]; (split; [|done]).
  - rewrite insert_app_r_alt by exact Hl. by eexists.
  - by exists ext.
Qed.

Lemma keeps_for_each {A B} h0 (xs : list A) (body : B -> A -> M B) acc :
  (forall acc x, keeps h0 (body acc x) (fun _ => True)) ->
  keeps h0 (for_each xs body acc) (fun _ => True).
Proof.
  intros Hb. revert acc. induction xs as [|x xs IH]; intros acc; simpl.
  - by apply keeps_ret.
  - eapply keeps_bind; [apply Hb|]. intros acc' _. apply IH.
Qed.

Lemma keeps_try {A} h0 (body : M A) handler Q :
  keeps h0 body Q -> (forall k, keeps h0 (handler k) Q) ->
  keeps h0 (try_except_KeyError body handler) Q.
Proof.
  intros Hb Hh h Hp. destruct (Hb h Hp) as [Hp' Hv]. unfold try_except_KeyError.
  destruct (body h) as [h' [a|[k| |]]]; simpl in *; try by split.
  by apply Hh.
Qed.

Lemma keeps_getitem_col h0 l c : keeps h0 (getitem_col l c) (fun _ => True).
Proof.
  eapply keeps_bind; [apply keeps_load|]. intros df _. apply keeps_lift.
Qed.

Lemma keeps_getitem_mask h0 l mk : keeps h0 (getitem_mask l mk) (created_after h0).
Proof.
  eapply keeps_bind; [apply keeps_load|]. intros df _. apply keeps_alloc.
Qed.

Lemma keeps_copy h0 l : keeps h0 (copy l) (created_after h0).
Proof.
  eapply keeps_bind; [apply keeps_load|]. intros df _. apply keeps_alloc.
Qed.

Lemma keeps_getitem_cols h0 l cols : keeps h0 (getitem_cols l cols) (created_after h0).
Proof.
  eapply keeps_bind; [apply keeps_load|]. intros df _.
  eapply keeps_bind; [apply keeps_lift|]. intros df' _. apply keeps_alloc.
Qed.

Lemma keeps_select_copy_tag {B} h0 m mk v (k : loc -> M B) Q :
  (forall c, keeps h0 (k c) Q) ->
  keeps h0 (sel <- getitem_mask m mk ;; c <- copy sel ;; setitem c "result" v ;;; k c) Q.
Proof.
  intros Hk.
  eapply keeps_bind; [apply keeps_getitem_mask|]. intros sel _.
  eapply keeps_bind; [apply keeps_copy|]. intros c Hc.
  eapply keeps_bind; [by apply keeps_modify|]. intros _ _. apply Hk.
Qed.

Lemma keeps_classify_merged_rows h0 m cfg :
  keeps h0 (classify_merged_rows m cfg) (fun _ => True).
Proof.
  unfold classify_merged_rows.
  eapply keeps_bind; [apply keeps_getitem_col|]. intros marker _.
  eapply keeps_bind.
  { apply keeps_for_each. intros acc x.
    eapply keeps_bind; [apply keeps_getitem_col|]. intros l _.
    eapply keeps_bind; [apply keeps_getitem_col|]. intros r _.
    by apply keeps_ret. }
  intros match_cond _. apply keeps_select_copy_tag. intros c1.
  eapply keeps_bind; [apply keeps_getitem_col|]. intros marker1 _.
  apply keeps_select_copy_tag. intros c2.
  eapply keeps_bind; [apply keeps_getitem_col|]. intros marker2 _.
  apply keeps_select_copy_tag. intros c3.
  eapply keeps_bind; [apply keeps_getitem_col|]. intros marker3 _.
  eapply keeps_bind.
  { apply keeps_for_each. intros acc x.
    eapply keeps_bind; [apply keeps_getitem_col|]. intros l _.
    eapply keeps_bind; [apply keeps_getitem_col|]. intros r _.
    by apply keeps_ret. }
  intros mismatch_pairs _. apply keeps_select_copy_tag. intros c4.
  by apply keeps_ret.
Qed.

Lemma keeps_merge_dataframes h0 li lp cfg :
  keeps h0 (merge_dataframes li lp cfg) (fun _ => True).
Proof.
  unfold merge_dataframes, merge. apply keeps_try.
  - eapply keeps_bind; [|intros merged _; by apply keeps_ret].
    eapply keeps_bind; [apply keeps_load|]. intros l _.
    eapply keeps_bind; [apply keeps_load|]. intros r _.
    eapply keeps_bind; [apply keeps_lift|]. intros mdf _.
    apply keeps_alloc.
  - intros k. apply keeps_raise.
Qed.

Lemma keeps_finalize_results h0 results cfg :
  keeps h0 (finalize_results results cfg) (fun _ => True).
Proof.
  unfold finalize_results. apply keeps_for_each. intros final item.
  eapply keeps_bind.
  { unfold get_columns. eapply keeps_bind; [apply keeps_load|].
    intros df _. by apply (keeps_ret _ _ (fun _ => True)). }
  intros cols _.
  eapply keeps_bind; [apply keeps_getitem_cols|]. intros df' Hdf'.
  eapply keeps_bind; [by apply keeps_modify|]. intros _ _. by apply keeps_ret.
Qed.

Lemma keeps_reconcile h0 self li lp :
  keeps h0 (reconcile self li lp) (fun _ => True).
Proof.
  unfold reconcile.
  eapply keeps_bind; [apply keeps_merge_dataframes|]. intros merged _.
  eapply keeps_bind; [apply keeps_classify_merged_rows|]. intros results _.
  eapply keeps_bind; [apply keeps_finalize_results|]. intros final _.
  by apply keeps_ret.
Qed.

(** ** Dictionaries *)

Lemma dict_get_set {V} (d : list (string * V)) k v k' :
  dict_get (dict_set d k v) k' = if String.eqb k' k then Some v else dict_get d k'.
Proof.
  induction d as [|[k0 v0] d IH]; simpl.
  - reflexivity.
  - destruct (String.eqb k k0) eqn:E; simpl.
    + apply String.eqb_eq in E. subst. by destruct (String.eqb k' k0).
    + rewrite IH. destruct (String.eqb k' k0) eqn:E0; [|reflexivity].
      apply String.eqb_eq in E0. subst.
      rewrite String.eqb_sym in E. by rewrite E.
Qed.

Lemma dict_get_set_all_notin {V} (kvs d : list (string * V)) k :
  k ∉ map fst kvs -> dict_get (dict_set_all d kvs) k = dict_get d k.
Proof.
  unfold dict_set_all.
  revert d. induction kvs as [|[k0 v0] kvs IH]; intros d Hk; simpl; [reflexivity|].
  simpl in Hk. apply not_elem_of_cons in Hk as [Hne Hk].
  rewrite IH by done. rewrite dict_get_set.
  apply String.eqb_neq in Hne. by rewrite Hne.
Qed.

Lemma dict_get_set_all {V} (kvs d : list (string * V)) k v :
  NoDup (map fst kvs) -> (k, v) ∈ kvs -> dict_get (dict_set_all d kvs) k = Some v.
Proof.
  revert d. induction kvs as [|[k0 v0] kvs IH]; intros d Hnd Hin; simpl.
  - by apply elem_of_nil in Hin.
  - simpl in Hnd. apply NoDup_cons in Hnd as [Hk0 Hnd].
    apply elem_of_cons in Hin as [[= -> ->]|Hin].
    + fold (dict_set_all (dict_set d k0 v0) kvs).
      rewrite dict_get_set_all_notin by done.
      by rewrite dict_get_set, String.eqb_refl.
    + by apply IH.
Qed.

Lemma dict_get_elem_of {V} (d : list (string * V)) k v :
  NoDup (map fst d) -> (k, v) ∈ d -> dict_get d k = Some v.
Proof.
  induction d as [|[k0 v0] d IH]; simpl; intros Hnd Hin.
  - by apply elem_of_nil in Hin.
  - apply NoDup_cons in Hnd as [Hk0 Hnd].
    apply elem_of_cons in Hin as [[= -> ->]|Hin].
    + by rewrite String.eqb_refl.
    + destruct (String.eqb k k0) eqn:E; [|by apply IH].
      apply String.eqb_eq in E. subst. exfalso. apply Hk0.
      apply list_elem_of_fmap. by exists (k0, v).
Qed.

(** ** The finalizer, run on a store *)

Lemma first_missing_None cols have :
  (forall c, c ∈ cols -> c ∈ have) -> first_missing cols have = None.
Proof.
  induction cols as [|c cols IH]; simpl; intros H; [reflexivity|].
  assert (Hc : has_col c have = true) by (apply has_col_elem_of, H; by left).
  rewrite Hc. apply IH. intros c' Hc'. apply H. by right.
Qed.

Lemma elem_of_finalize_cols mc cols c :
  c ∈ finalize_cols mc cols <-> (c ∈ cols /\ c <> mc) \/ c = "result".
Proof.
  unfold finalize_cols.
  assert (Hf : forall c, c ∈ List.filter (fun col => negb (String.eqb col mc)) cols
                         <-> c ∈ cols /\ c <> mc).
  { intros c0. rewrite list_elem_of_In, filter_In, negb_true_iff, String.eqb_neq.
    by rewrite <- list_elem_of_In. }
  destruct (has_col "result" _) eqn:E.
  - rewrite Hf. apply has_col_elem_of, Hf in E. split; [tauto|].
    intros [?| ->]; tauto.
  - rewrite elem_of_app, Hf, list_elem_of_singleton. tauto.
Qed.

Lemma finalize_cols_present mc cols :
  "result" ∈ cols -> forall c, c ∈ finalize_cols mc cols -> c ∈ cols.
Proof. intros Hr c [[? _]| ->]%elem_of_finalize_cols; done. Qed.

Lemma finalize_item_run cfg h l df key final :
  h !! l = Some df ->
  "result" ∈ columns df ->
  (df_columns <- get_columns l ;;
   let cols := List.filter (fun col => negb (String.eqb col (merge_indicator cfg)))
                 df_columns in
   let cols := if has_col "result" cols then cols else cols ++ ["result"] in
   df' <- getitem_cols l cols ;;
   rename_inplace df' (rename_columns cfg) ;;;
   ret (dict_set final key df')) h
  = (h ++ [finalize_frame cfg df], Ok (dict_set final key (length h))).
Proof.
  intros Hl Hr. unfold get_columns.
  erewrite bind_run; cycle 1.
  { erewrite bind_run; [reflexivity|]. unfold load. by rewrite Hl. }
  cbv zeta. fold (finalize_cols (merge_indicator cfg) (columns df)).
  erewrite bind_run; cycle 1.
  { unfold getitem_cols. erewrite bind_run by (unfold load; by rewrite Hl).
    erewrite bind_run; [reflexivity|].
    unfold lift, df_getitem_cols.
    rewrite first_missing_None by (by apply finalize_cols_present). reflexivity. }
  unfold rename_inplace, modify, bind, ret.
  by rewrite lookup_snoc_length, insert_snoc_length.
Qed.

Lemma finalize_loop_run cfg items dfs : forall h final,
  Forall2 (fun kv df => h !! snd kv = Some df /\ "result" ∈ columns df) items dfs ->
  for_each items
    (fun final item =>
       df_columns <- get_columns (snd item) ;;
       let cols := List.filter (fun col => negb (String.eqb col (merge_indicator cfg)))
                     df_columns in
       let cols := if has_col "result" cols then cols else cols ++ ["result"] in
       df' <- getitem_cols (snd item) cols ;;
       rename_inplace df' (rename_columns cfg) ;;;
       ret (dict_set final (fst item) df'))
    final h
  = (h ++ map (finalize_frame cfg) dfs,
     Ok (dict_set_all final (zip (map fst items) (seq (length h) (length items))))).
Proof.
  intros h final H. revert h final H.
  induction items as [|[key l] items IH] in dfs |- *; intros h final H.
  - inversion H; subst. simpl. unfold ret. by rewrite app_nil_r.
  - inversion H as [|? df ? dfs' [Hl Hr] Hrest]; subst. simpl in *.
    erewrite bind_run by (by apply finalize_item_run).
    rewrite (IH dfs').
    + rewrite <- app_assoc, length_app. simpl.
      by rewrite Nat.add_1_r.
    + eapply Forall2_impl; [exact Hrest|]. intros kv df' [H1 H2]. split; [|done].
      by apply lookup_app_l_Some.
Qed.

(** ** What the finalizer does to a frame *)

Lemma cell_cons_eq c cols v vals : cell (c :: cols) (v :: vals) c = v.
Proof. unfold cell. simpl. by rewrite String.eqb_refl. Qed.

Lemma cell_cons_ne c c' cols v vals :
  c <> c' -> cell (c' :: cols) (v :: vals) c = cell cols vals c.
Proof.
  intros Hne. unfold cell. simpl. apply String.eqb_neq in Hne. rewrite Hne.
  by destruct (col_pos c cols).
Qed.

Lemma map_cell_tail c cols v vals (cs : list string) :
  c ∉ cs -> map (cell (c :: cols) (v :: vals)) cs = map (cell cols vals) cs.
Proof.
  intros Hc. apply map_ext_in. intros c' Hin%list_elem_of_In.
  apply cell_cons_ne. by intros ->.
Qed.

Lemma map_cell_filter (P : string -> bool) cols : forall vals,
  NoDup cols -> length vals = length cols ->
  map (cell cols vals) (List.filter P cols)
  = map snd (List.filter (fun cv => P (fst cv)) (zip cols vals)).
Proof.
  induction cols as [|c cols IH]; intros [|v vals] Hnd Hlen; simpl in *;
    try reflexivity; try discriminate.
  apply NoDup_cons in Hnd as [Hc Hnd]. injection Hlen as Hlen.
  assert (Hc' : c ∉ List.filter P cols).
  { intros Hin%list_elem_of_In%filter_In. apply Hc, list_elem_of_In. tauto. }
  destruct (P c); simpl.
  - rewrite cell_cons_eq, map_cell_tail, IH by done. reflexivity.
  - rewrite map_cell_tail, IH by done. reflexivity.
Qed.

Lemma map_cell_id cols : forall vals,
  NoDup cols -> length vals = length cols -> map (cell cols vals) cols = vals.
Proof.
  induction cols as [|c cols IH]; intros [|v vals] Hnd Hlen; simpl in *;
    try reflexivity; try discriminate.
  apply NoDup_cons in Hnd as [Hc Hnd]. injection Hlen as Hlen.
  by rewrite cell_cons_eq, map_cell_tail, IH.
Qed.

Lemma filter_all {A} (P : A -> bool) (xs : list A) :
  (forall x, x ∈ xs -> P x = true) -> List.filter P xs = xs.
Proof.
  induction xs as [|x xs IH]; simpl; intros H; [reflexivity|].
  rewrite H by (by left). rewrite IH; [reflexivity|]. intros y Hy. apply H. by right.
Qed.

Lemma finalize_cols_drop mc cols :
  mc <> "result" -> "result" ∈ cols ->
  finalize_cols mc cols = List.filter (fun col => negb (String.eqb col mc)) cols.
Proof.
  intros Hne Hr. unfold finalize_cols.
  destruct (has_col "result" _) eqn:E; [reflexivity|].
  apply has_col_false in E. exfalso. apply E.
  apply list_elem_of_In, filter_In. split; [by apply list_elem_of_In|].
  apply negb_true_iff, String.eqb_neq. congruence.
Qed.

Lemma index_finalize_frame cfg df : index (finalize_frame cfg df) = index df.
Proof.
  unfold finalize_frame, df_rename, index. simpl. rewrite map_map. by apply map_ext.
Qed.

Lemma rows_finalize_frame cfg df :
  wf_frame df ->
  merge_indicator cfg <> "result" -> "result" ∈ columns df ->
  Forall2 (fun r r' => fst r' = fst r /\
             snd r' = without_column (merge_indicator cfg) (columns df) (snd r))
    (rows df) (rows (finalize_frame cfg df)).
Proof.
  intros [Hnd Hw] Hne Hr. unfold finalize_frame, df_rename. simpl.
  rewrite finalize_cols_drop by done.
  induction Hw as [|r rs Hlen Hw IH]; simpl; constructor; [|exact IH].
  split; [reflexivity|]. simpl. unfold without_column.
  by rewrite (map_cell_filter (fun c => negb (String.eqb c (merge_indicator cfg)))).
Qed.

(** A frame without the marker, with [result], whose labels the rename map
    leaves as they are, is its own finalization. *)
Lemma finalize_frame_fixed cfg df :
  wf_frame df ->
  merge_indicator cfg ∉ columns df ->
  "result" ∈ columns df ->
  (forall c, c ∈ columns df -> rename_label (rename_columns cfg) c = c) ->
  finalize_frame cfg df = df.
Proof.
  intros [Hnd Hw] Hmc Hr Hren. destruct df as [cols rs]. simpl in *.
  unfold finalize_frame, df_rename, finalize_cols. simpl.
  rewrite filter_all; cycle 1.
  { intros c Hc. apply negb_true_iff, String.eqb_neq. by intros ->. }
  apply has_col_elem_of in Hr. rewrite Hr. f_equal.
  - rewrite <- (map_id cols) at 2. apply map_ext_in.
    intros c Hc%list_elem_of_In. by apply Hren.
  - rewrite <- (map_id rs) at 2. apply map_ext_in.
    intros [i vals] Hin. simpl. f_equal.
    rewrite Forall_forall in Hw. apply map_cell_id; [done|].
    apply (Hw (i, vals)). by apply list_elem_of_In.
Qed.

(** ** The merge, run on a store *)

Lemma first_missing_key_None lcols rcols on :
  forallb (fun k => has_col k rcols && has_col k lcols) on = true ->
  first_missing_key lcols rcols on = None.
Proof.
  induction on as [|k on IH]; simpl; [reflexivity|].
  intros [Hk Hon]%andb_prop. apply andb_prop in Hk as [Hr Hl].
  rewrite Hr, Hl. simpl. by apply IH.
Qed.

Lemma first_missing_key_Some lcols rcols on k :
  k ∈ on -> k ∉ lcols \/ k ∉ rcols ->
  exists k', first_missing_key lcols rcols on = Some k' /\
             k' ∈ on /\ (k' ∉ lcols \/ k' ∉ rcols).
Proof.
  induction on as [|k0 on IH]; intros Hin Hmiss.
  - by apply elem_of_nil in Hin.
  - simpl. destruct (has_col k0 rcols) eqn:Er; simpl.
    + destruct (has_col k0 lcols) eqn:El; simpl.
      * apply elem_of_cons in Hin as [->|Hin].
        { apply has_col_elem_of in Er, El. tauto. }
        destruct (IH Hin Hmiss) as (k' & H1 & H2 & H3).
        exists k'. repeat split; [done| by right | done].
      * exists k0. apply has_col_false in El. repeat split; [by left | by left].
    + exists k0. apply has_col_false in Er. repeat split; [by left | by right].
Qed.

Lemma mergeable_parts cfg left right :
  mergeable cfg left right = true ->
  merge_ready (merge_key cfg) (merge_suffixes cfg) (merge_indicator cfg)
    (columns left) (columns right) = true
  /\ key_types_clash (merge_key cfg) left right = false.
Proof.
  unfold mergeable. intros [H1 H2]%andb_prop. by apply negb_true_iff in H2.
Qed.

(** Without rows on one side there is no refusal for the key types. *)
Lemma key_types_clash_no_rows on left right :
  rows left = [] \/ rows right = [] -> key_types_clash on left right = false.
Proof.
  unfold key_types_clash. intros [-> | ->]; [done|]. by destruct (rows left).
Qed.

Lemma df_merge_outer_ready cfg left right :
  mergeable cfg left right = true ->
  df_merge_outer left right (merge_key cfg) (merge_suffixes cfg) (merge_indicator cfg)
  = Ok (merged_frame cfg left right).
Proof.
  intros [Hready Hclash]%mergeable_parts. revert Hready.
  unfold merge_ready, df_merge_outer, merged_frame.
  intros [[[[Hk Hi]%andb_prop Hon]%andb_prop Hs]%andb_prop Hnd]%andb_prop.
  rewrite (first_missing_key_None _ _ _ Hk), Hclash.
  apply negb_true_iff in Hi, Hs. rewrite Hi.
  destruct (merge_key cfg) as [|k on]; [discriminate|].
  cbv zeta. rewrite Hs, Hnd. reflexivity.
Qed.

Lemma merge_dataframes_run cfg h li lp left right :
  h !! li = Some left -> h !! lp = Some right ->
  mergeable cfg left right = true ->
  merge_dataframes li lp cfg h = (h ++ [merged_frame cfg left right], Ok (length h)).
Proof.
  intros Hl Hr Hready. unfold merge_dataframes, try_except_KeyError, merge.
  unfold bind, load, lift, alloc, ret. rewrite Hl, Hr.
  by rewrite (df_merge_outer_ready _ _ _ Hready).
Qed.

Lemma merge_dataframes_missing_key cfg h li lp left right k :
  h !! li = Some left -> h !! lp = Some right ->
  first_missing_key (columns left) (columns right) (merge_key cfg) = Some k ->
  merge_dataframes li lp cfg h = (h, Raise (KeyError k)).
Proof.
  intros Hl Hr Hk. unfold merge_dataframes, try_except_KeyError, merge.
  unfold bind, load, lift, alloc, ret, raise, df_merge_outer. rewrite Hl, Hr.
  by rewrite Hk.
Qed.

(** ** Counting the rows of an outer join by key *)

Section JoinCount.
Context {K A B C : Type} `{EqDecision K}.
Variables (kl : A -> K) (kr : B -> K) (kc : C -> K).
Variables (pair : A -> B -> C) (left_alone : A -> C) (right_alone : B -> C).
Hypothesis kc_pair : forall a b, kc (pair a b) = kl a.
Hypothesis kc_left : forall a, kc (left_alone a) = kl a.
Hypothesis kc_right : forall b, kc (right_alone b) = kr b.

Let matches (a : A) (b : B) : bool := bool_decide (kl a = kr b).






End JoinCount.

(** ** The cells of a merged row *)













Section MergedCells.
Variable on : list string.
Variable sfx : string * string.
Variables left right : DataFrame.
Variable ind : string.
Hypothesis keys_present :
  forallb (fun k => has_col k (columns right) && has_col k (columns left)) on = true.
Hypothesis labels_distinct : NoDup (merge_labels on sfx (columns left) (columns right)).

Let lcols : list string := columns left.
Let rcols : list string := columns right.












End MergedCells.

(** ** The whole pipeline, run on a store *)

Lemma result_in_df_setitem v df : "result" ∈ columns (df_setitem "result" v df).
Proof.
  unfold df_setitem. destruct (col_pos "result" (columns df)) eqn:E; simpl.
  - apply has_col_elem_of. unfold has_col. by rewrite E.
  - apply elem_of_app. right. by apply list_elem_of_singleton.
Qed.

Lemma rows_category_frame_nil df keep label :
  rows df = [] -> rows (category_frame df keep label) = [].
Proof.
  intros E. unfold category_frame, df_setitem. rewrite E. simpl.
  by destruct (col_pos "result" (columns df)).
Qed.

Lemma rows_finalize_frame_nil cfg df : rows df = [] -> rows (finalize_frame cfg df) = [].
Proof. intros E. unfold finalize_frame. simpl. by rewrite E. Qed.

Lemma comparison_columns_present cfg lcols rcols :
  comparison_ready cfg lcols rcols = true ->
  pairs_present
    (merge_labels (merge_key cfg) (merge_suffixes cfg) lcols rcols ++ [merge_indicator cfg])
    (comparison_pairs cfg) = true.
Proof.
  unfold comparison_ready, pairs_present. rewrite !forallb_forall.
  intros H p Hp. specialize (H p Hp).
  apply andb_prop in H as [[[Hl Hr]%andb_prop Hk]%andb_prop Hs].
  apply bool_decide_eq_true in Hs. apply negb_true_iff in Hk.
  assert (Hov : overlapping (merge_key cfg) lcols rcols (base p) = true).
  { unfold overlapping, is_key. by rewrite Hk, Hl, Hr. }
  apply has_col_elem_of in Hl, Hr.
  apply andb_true_intro. split; apply has_col_elem_of, elem_of_app; left;
    unfold merge_labels; apply list_elem_of_fmap.
  - exists (FromLeft (base p)). simpl. rewrite Hov. unfold left_col. rewrite Hs.
    split; [done|]. unfold origins. apply elem_of_app. left.
    apply list_elem_of_fmap. by exists (base p).
  - exists (FromRight (base p)). simpl. rewrite Hov. unfold right_col. rewrite Hs.
    split; [done|]. unfold origins. apply elem_of_app. right.
    apply list_elem_of_fmap. exists (base p). split; [done|].
    apply list_elem_of_In, filter_In. split; [by apply list_elem_of_In|].
    unfold is_key. by rewrite Hk.
Qed.

Lemma merged_frame_classifiable cfg left right :
  comparison_ready cfg (columns left) (columns right) = true ->
  classifiable cfg (merged_frame cfg left right) = true.
Proof.
  intros Hc. unfold classifiable, merged_frame. simpl.
  rewrite (comparison_columns_present _ _ _ Hc), andb_true_r.
  apply has_col_elem_of, elem_of_app. right. by apply list_elem_of_singleton.
Qed.

(** When the merge goes through and the merged frame has the comparison
    columns, [reconcile] returns the four categories, each the finalized
    category frame of the merged frame. *)
Lemma reconcile_run self h li lp left right :
  let cfg := self_config self in
  let mdf := merged_frame cfg left right in
  h !! li = Some left -> h !! lp = Some right ->
  mergeable cfg left right = true ->
  classifiable cfg mdf = true ->
  exists ext l1 l2 l3 l4,
    reconcile self li lp h
    = (h ++ ext, Ok [("matched", l1); ("only_internal", l2);
                     ("only_provider", l3); ("mismatched", l4)])
    /\ (h ++ ext) !! l1 = Some (finalize_frame cfg (matched_frame cfg mdf))
    /\ (h ++ ext) !! l2 = Some (finalize_frame cfg (only_internal_frame cfg mdf))
    /\ (h ++ ext) !! l3 = Some (finalize_frame cfg (only_provider_frame cfg mdf))
    /\ (h ++ ext) !! l4 = Some (finalize_frame cfg (mismatched_frame cfg mdf)).
Proof.
  intros cfg mdf Hl Hr Hready Hcls. unfold reconcile. fold cfg.
  erewrite bind_run by (by apply merge_dataframes_run). fold mdf.
  destruct (classify_merged_rows_run cfg (length h) mdf (h ++ [mdf]))
    as (ext & c1 & c2 & c3 & c4 & Hrun & H1 & H2 & H3 & H4);
    [by apply lookup_snoc_length|done|].
  erewrite bind_run by exact Hrun.
  erewrite bind_run; cycle 1.
  { unfold finalize_results.
    apply (finalize_loop_run cfg _
             [matched_frame cfg mdf; only_internal_frame cfg mdf;
              only_provider_frame cfg mdf; mismatched_frame cfg mdf]).
    repeat constructor; simpl; try done; apply result_in_df_setitem. }
  unfold ret. set (h2 := (h ++ [mdf]) ++ ext) in *.
  set (frs := map (finalize_frame cfg) _). simpl in frs.
  assert (E : h2 ++ frs = h ++ ([mdf] ++ ext ++ frs))
    by (subst h2; by rewrite <- !app_assoc).
  exists ([mdf] ++ ext ++ frs), (length h2 + 0), (length h2 + 1),
    (length h2 + 2), (length h2 + 3).
  rewrite <- E. split.
  - simpl. by rewrite Nat.add_0_r, Nat.add_1_r, !Nat.add_succ_r, !Nat.add_0_r.
  - repeat split; by apply lookup_ext.
Qed.

(** ** The merged frame as the classifier expects it *)



Lemma index_merged_frame cfg left right :
  NoDup (index (merged_frame cfg left right)).
Proof.
  unfold index, merged_frame, number_rows. cbn [rows].
  rewrite fst_zip by (by rewrite length_seq). apply NoDup_seq.
Qed.


(** ** The scenarios of the specification *)

Example scenario_full_match :
  category_sizes
    (reconcile (mkReconciler demo_config) 0 1 [one_row 10 "T1"; one_row 10 "T1"])
  = Some [("matched", Some 1); ("only_internal", Some 0);
          ("only_provider", Some 0); ("mismatched", Some 0)].
Proof. vm_compute. reflexivity. Qed.

Example scenario_mismatch :
  category_sizes
    (reconcile (mkReconciler demo_config) 0 1 [one_row 10 "T1"; one_row 12 "T1"])
  = Some [("matched", Some 0); ("only_internal", Some 0);
          ("only_provider", Some 0); ("mismatched", Some 1)].
Proof. vm_compute. reflexivity. Qed.

Example scenario_one_sided :
  category_sizes
    (reconcile (mkReconciler demo_config) 0 1 [one_row 10 "T1"; one_row 10 "T2"])
  = Some [("matched", Some 0); ("only_internal", Some 1);
          ("only_provider", Some 1); ("mismatched", Some 0)].
Proof. vm_compute. reflexivity. Qed.

(** * The classifier *)

(** C1. With at least one comparison pair, the classifier splits the merged
    rows: no row is both matched and mismatched; a row is matched or
    mismatched exactly when its marker is the configured [both] value; it is
    in [only_internal] exactly when its marker is the [left_only] value and
    in [only_provider] exactly when it is the [right_only] value; and a row
    whose marker is one of the three (distinct) configured values is in
    exactly one of the four categories. *)
Theorem classify_partition cfg h m df :
  h !! m = Some df ->
  classifiable cfg df = true ->
  NoDup (index df) ->
  comparison_pairs cfg <> [] ->
  exists h' res,
    classify_merged_rows m cfg h = (h', Ok res) /\
    forall i vals, (i, vals) ∈ rows df -> row_partitioned cfg df h' res i vals.
Proof.
  intros Hm Hc Hnd Hne.
  destruct (classify_membership cfg h m df Hm Hc Hnd) as (h' & res & Hrun & Hmem).
  exists h', res. split; [exact Hrun|]. intros i vals Hin.
  destruct (Hmem i vals Hin) as (Hma & Hoi & Hop & Hmi).
  rewrite (is_mismatched_row_nonempty _ _ _ Hne) in Hmi.
  unfold is_only_internal_row in Hoi. unfold is_only_provider_row in Hop.
  pose proof (marker_is_true cfg (columns df) (both (merge_status cfg)) vals) as HB.
  pose proof (marker_is_true cfg (columns df) (left_only (merge_status cfg)) vals) as HL.
  pose proof (marker_is_true cfg (columns df) (right_only (merge_status cfg)) vals) as HR.
  assert (Hsub : is_matched_row cfg df vals = true ->
                 marker_is cfg (columns df) (both (merge_status cfg)) vals = true).
  { unfold is_matched_row. by intros [? _]%andb_prop. }
  unfold row_partitioned, exactly_one, status_distinct. cbv zeta.
  rewrite !elem_of_cons, elem_of_nil.
  destruct (is_matched_row cfg df vals),
    (marker_is cfg (columns df) (both (merge_status cfg)) vals),
    (marker_is cfg (columns df) (left_only (merge_status cfg)) vals),
    (marker_is cfg (columns df) (right_only (merge_status cfg)) vals);
    simpl in *; intuition (try discriminate; try congruence).
Qed.

Lemma classify_partition_witness :
  comparison_pairs demo_config <> [] /\
  exists h' res,
    classify_merged_rows 0 demo_config [demo_merged] = (h', Ok res) /\
    forall i vals, (i, vals) ∈ rows demo_merged ->
      row_partitioned demo_config demo_merged h' res i vals.
Proof.
  split; [discriminate|].
  apply (classify_partition demo_config [demo_merged] 0 demo_merged).
  - reflexivity.
  - vm_compute. reflexivity.
  - apply (bool_decide_unpack _). vm_compute. exact I.
  - discriminate.
Defined.

(** Without comparison pairs the matched rows and the mismatched rows are
    the same rows: all the rows whose marker is the [both] value. *)
Lemma classify_without_pairs cfg h m df :
  h !! m = Some df ->
  classifiable cfg df = true ->
  NoDup (index df) ->
  comparison_pairs cfg = [] ->
  exists h' res,
    classify_merged_rows m cfg h = (h', Ok res) /\
    forall i vals, (i, vals) ∈ rows df ->
      (in_category h' res "matched" i
         <-> cell (columns df) vals (merge_indicator cfg) = Str (both (merge_status cfg)))
      /\ (in_category h' res "mismatched" i
         <-> cell (columns df) vals (merge_indicator cfg) = Str (both (merge_status cfg))).
Proof.
  intros Hm Hc Hnd He.
  destruct (classify_membership cfg h m df Hm Hc Hnd) as (h' & res & Hrun & Hmem).
  exists h', res. split; [exact Hrun|]. intros i vals Hin.
  destruct (Hmem i vals Hin) as (Hma & _ & _ & Hmi).
  destruct (is_mismatched_row_empty cfg df vals He) as [E1 E2].
  rewrite E1 in Hmi. rewrite E2 in Hma. rewrite marker_is_true in Hma, Hmi.
  by split.
Qed.

(** C2 (the code on the failing input).  With an empty comparison-pair list
    the mismatched table is not empty: on the merged example, the rows 0
    and 1, present on both sides, are returned both as matched and as
    mismatched. *)
Theorem classify_empty_pairs_mismatched_not_empty :
  exists h' res l df,
    classify_merged_rows 0 no_pairs_config [demo_merged] = (h', Ok res) /\
    dict_get res "mismatched" = Some l /\ h' !! l = Some df /\
    index df = [0; 1] /\
    in_category h' res "matched" 0 /\ in_category h' res "mismatched" 0.
Proof.
  eexists _, _, _, _. split; [vm_compute; reflexivity|].
  split; [reflexivity|]. split; [reflexivity|]. split; [reflexivity|].
  split; eexists _, _; (split; [reflexivity|]); (split; [reflexivity|]);
    vm_compute; by left.
Qed.




(** C10. A merged row marked [both] in which some comparison pair is
    missing on both sides is placed in mismatched and not in matched: [==]
    of two missing values is false and [!=] is true. *)
Theorem classify_missing_both_sides cfg h m df i vals pair :
  h !! m = Some df ->
  classifiable cfg df = true ->
  NoDup (index df) ->
  (i, vals) ∈ rows df ->
  cell (columns df) vals (merge_indicator cfg) = Str (both (merge_status cfg)) ->
  pair ∈ comparison_pairs cfg ->
  cell (columns df) vals (left_col pair) = NaN ->
  cell (columns df) vals (right_col pair) = NaN ->
  exists h' res,
    classify_merged_rows m cfg h = (h', Ok res) /\
    in_category h' res "mismatched" i /\
    ~ in_category h' res "matched" i.
Proof.
  intros Hm Hc Hnd Hin Hmk Hp Hl Hr.
  destruct (classify_membership cfg h m df Hm Hc Hnd) as (h' & res & Hrun & Hmem).
  exists h', res. split; [exact Hrun|].
  destruct (Hmem i vals Hin) as (Hma & _ & _ & Hmi).
  assert (Hne : comparison_pairs cfg <> []).
  { intros E. rewrite E in Hp. by apply elem_of_nil in Hp. }
  assert (Hnot : is_matched_row cfg df vals = false).
  { apply not_true_is_false. intros [_ Hall]%is_matched_row_true.
    destruct (Hall pair Hp) as [_ Hpresent]. apply Hpresent.
    unfold pair_values, compared_value. cbn [fst]. fold (left_col pair).
    rewrite Hl. by repeat case_match. }
  rewrite Hma, Hmi, (is_mismatched_row_nonempty _ _ _ Hne), Hnot.
  split; [|discriminate].
  rewrite andb_true_r. by apply marker_is_true.
Qed.

Lemma classify_missing_both_sides_witness :
  cell (columns missing_amount_merged)
    [Str "T5"; NaN; Str "paid"; NaN; Str "paid"; Str "both"] "amount_internal" = NaN /\
  cell (columns missing_amount_merged)
    [Str "T5"; NaN; Str "paid"; NaN; Str "paid"; Str "both"] "amount_provider" = NaN /\
  exists h' res,
    classify_merged_rows 0 demo_config [missing_amount_merged] = (h', Ok res) /\
    in_category h' res "mismatched" 0 /\
    ~ in_category h' res "matched" 0.
Proof.
  split; [reflexivity|]. split; [reflexivity|].
  apply (classify_missing_both_sides demo_config [missing_amount_merged] 0
           missing_amount_merged 0
           [Str "T5"; NaN; Str "paid"; NaN; Str "paid"; Str "both"]
           (mkPair "amount" ("_internal", "_provider"))).
  - reflexivity.
  - vm_compute. reflexivity.
  - apply (bool_decide_unpack _). vm_compute. exact I.
  - vm_compute. by left.
  - reflexivity.
  - vm_compute. by left.
  - reflexivity.
  - reflexivity.
Defined.

(** * The merger *)

(** C4. When a configured merge key is absent from the columns of either
    input, [merge_dataframes] raises [KeyError] naming a missing key, the
    handler re-raises it as it is, [reconcile] ends with the same exception,
    and no object is created in the store. *)
Theorem merge_missing_key_raises self h li lp left right :
  let cfg := self_config self in
  h !! li = Some left -> h !! lp = Some right ->
  (exists k, k ∈ merge_key cfg /\ (k ∉ columns left \/ k ∉ columns right)) ->
  exists k,
    k ∈ merge_key cfg /\ (k ∉ columns left \/ k ∉ columns right) /\
    merge_dataframes li lp cfg h = (h, Raise (KeyError k)) /\
    reconcile self li lp h = (h, Raise (KeyError k)).
Proof.
  intros cfg Hl Hr (k & Hk & Hmiss).
  destruct (first_missing_key_Some (columns left) (columns right) (merge_key cfg) k
              Hk Hmiss) as (k' & Hfirst & Hk' & Hmiss').
  exists k'. split; [done|]. split; [done|].
  pose proof (merge_dataframes_missing_key cfg h li lp left right k' Hl Hr Hfirst) as E.
  split; [exact E|]. unfold reconcile. fold cfg. by rewrite (bind_raise _ _ _ _ _ E).
Qed.

Lemma merge_missing_key_raises_witness :
  ("transaction_reference" ∉ columns provider_without_key) /\
  exists k,
    k ∈ merge_key demo_config /\
    (k ∉ columns demo_internal \/ k ∉ columns provider_without_key) /\
    merge_dataframes 0 1 demo_config [demo_internal; provider_without_key]
    = ([demo_internal; provider_without_key], Raise (KeyError k)) /\
    reconcile (mkReconciler demo_config) 0 1 [demo_internal; provider_without_key]
    = ([demo_internal; provider_without_key], Raise (KeyError k)).
Proof.
  assert (Hmiss : "transaction_reference" ∉ columns provider_without_key).
  { apply has_col_false. reflexivity. }
  split; [exact Hmiss|].
  apply (merge_missing_key_raises (mkReconciler demo_config)
           [demo_internal; provider_without_key] 0 1 demo_internal provider_without_key).
  - reflexivity.
  - reflexivity.
  - exists "transaction_reference". split; [by left|]. by right.
Defined.







(** * The finalizer *)

Lemma Forall2_choice {X Y} (P : X -> Y -> Prop) (xs : list X) :
  (forall x, x ∈ xs -> exists y, P x y) -> exists ys, Forall2 P xs ys.
Proof.
  induction xs as [|x xs IH]; intros H.
  - exists []. constructor.
  - destruct (H x) as [y Hy]; [by left|].
    destruct IH as [ys Hys]; [intros x' Hx'; apply H; by right|].
    exists (y :: ys). by constructor.
Qed.

(** On a dictionary of live tables that have a [result] column, the
    finalizer returns a dictionary with, under every key, a new object
    holding the finalization of the table under that key. *)
Lemma finalize_results_run cfg h results :
  NoDup (map fst results) ->
  (forall key l, (key, l) ∈ results ->
     exists df, h !! l = Some df /\ "result" ∈ columns df) ->
  exists ext final,
    finalize_results results cfg h = (h ++ ext, Ok final) /\
    forall key l df, (key, l) ∈ results -> h !! l = Some df ->
      exists l', dict_get final key = Some l' /\
                 (h ++ ext) !! l' = Some (finalize_frame cfg df).
Proof.
  intros Hnd Hlive.
  destruct (Forall2_choice
              (fun (kv : string * nat) df =>
                 h !! snd kv = Some df /\ "result" ∈ columns df) results)
    as [dfs Hdfs].
  { intros [key l] Hin. by apply Hlive in Hin. }
  eexists (map (finalize_frame cfg) dfs), _. split.
  { unfold finalize_results. by apply finalize_loop_run. }
  intros key l df Hin Hl.
  apply list_elem_of_lookup in Hin as [j Hj].
  destruct (Forall2_lookup_l _ _ _ _ _ Hdfs Hj) as (df' & Hj' & Hl' & _).
  simpl in Hl'. assert (df' = df) as -> by congruence.
  assert (Hlt : j < length results) by (by apply lookup_lt_Some in Hj).
  exists (length h + j). split.
  - apply dict_get_set_all.
    + rewrite fst_zip; [done|]. by rewrite length_map, length_seq.
    + apply list_elem_of_lookup. exists j.
      rewrite lookup_zip_with, list_lookup_fmap, Hj. simpl.
      by rewrite lookup_seq_lt.
  - apply lookup_ext. by rewrite list_lookup_fmap, Hj'.
Qed.

Lemma finalize_frame_from cfg df :
  wf_frame df ->
  merge_indicator cfg <> "result" -> "result" ∈ columns df ->
  finalized_from cfg df (finalize_frame cfg df).
Proof.
  intros Hwf Hne Hr. unfold finalized_from. cbv zeta. repeat split.
  - unfold finalize_frame, df_rename. simpl. by rewrite finalize_cols_drop.
  - rewrite <- (finalize_cols_drop _ _ Hne Hr). apply elem_of_finalize_cols. by right.
  - by apply rows_finalize_frame.
Qed.

(** C6. The finalizer changes columns only: under every key the output
    table has the rows of the input table, in the same order and under the
    same index labels, each without its marker cell; the labels are the
    input labels without the marker, renamed by the configured map; the
    [result] column is kept. *)
Theorem finalize_results_keeps_rows cfg h results :
  NoDup (map fst results) ->
  merge_indicator cfg <> "result" ->
  (forall key l, (key, l) ∈ results ->
     exists df, h !! l = Some df /\ wf_frame df /\ "result" ∈ columns df) ->
  exists h' final,
    finalize_results results cfg h = (h', Ok final) /\
    forall key l df, (key, l) ∈ results -> h !! l = Some df ->
      exists l' df',
        dict_get final key = Some l' /\ h' !! l' = Some df' /\
        index df' = index df /\ finalized_from cfg df df'.
Proof.
  intros Hnd Hne Hlive.
  destruct (finalize_results_run cfg h results Hnd) as (ext & final & Hrun & Hout).
  { intros key l Hin. destruct (Hlive key l Hin) as (df & ? & _ & ?). by exists df. }
  exists (h ++ ext), final. split; [exact Hrun|].
  intros key l df Hin Hl.
  destruct (Hout key l df Hin Hl) as (l' & Hget & Hl').
  destruct (Hlive key l Hin) as (df0 & Hl0 & Hwf & Hr).
  assert (df0 = df) as -> by congruence.
  exists l', (finalize_frame cfg df). repeat split; try done.
  - apply index_finalize_frame.
  - by apply finalize_frame_from.
  - by apply finalize_frame_from.
  - by apply finalize_frame_from.
Qed.

Lemma finalize_results_keeps_rows_witness :
  merge_indicator demo_config <> "result" /\
  exists h' final,
    finalize_results demo_results demo_config demo_classified = (h', Ok final) /\
    forall key l df, (key, l) ∈ demo_results -> demo_classified !! l = Some df ->
      exists l' df',
        dict_get final key = Some l' /\ h' !! l' = Some df' /\
        index df' = index df /\ finalized_from demo_config df df'.
Proof.
  split; [discriminate|].
  apply (finalize_results_keeps_rows demo_config demo_classified demo_results).
  - apply (bool_decide_unpack _). vm_compute. exact I.
  - discriminate.
  - intros key l Hin. unfold demo_results in Hin.
    repeat (apply elem_of_cons in Hin as [[= -> ->]|Hin]);
      [| | | |by apply elem_of_nil in Hin];
      (eexists; split; [reflexivity|]; split;
       [split; [apply (bool_decide_unpack _); vm_compute; exact I
               |repeat constructor]
       |apply has_col_elem_of; reflexivity]).
Defined.

(** C7. Finalizing tables that are already finalized (no marker column, a
    [result] column, no label left to rename) changes nothing: under every
    key the output table is equal to the input table. *)
Theorem finalize_results_finalized_noop cfg h results :
  NoDup (map fst results) ->
  (forall key l, (key, l) ∈ results ->
     exists df, h !! l = Some df /\ already_finalized cfg df) ->
  exists h' final,
    finalize_results results cfg h = (h', Ok final) /\
    forall key l df, (key, l) ∈ results -> h !! l = Some df ->
      exists l', dict_get final key = Some l' /\ h' !! l' = Some df.
Proof.
  intros Hnd Hfin.
  destruct (finalize_results_run cfg h results Hnd) as (ext & final & Hrun & Hout).
  { intros key l Hin. destruct (Hfin key l Hin) as (df & ? & _ & _ & ? & _).
    by exists df. }
  exists (h ++ ext), final. split; [exact Hrun|].
  intros key l df Hin Hl.
  destruct (Hout key l df Hin Hl) as (l' & Hget & Hl').
  destruct (Hfin key l Hin) as (df0 & Hl0 & Hwf & Hmc & Hr & Hren).
  assert (df0 = df) as -> by congruence.
  exists l'. split; [done|]. by rewrite Hl', finalize_frame_fixed.
Qed.

Lemma finalize_results_finalized_noop_witness :
  exists h' final,
    finalize_results demo_results demo_config demo_finalized = (h', Ok final) /\
    forall key l df, (key, l) ∈ demo_results -> demo_finalized !! l = Some df ->
      exists l', dict_get final key = Some l' /\ h' !! l' = Some df.
Proof.
  apply (finalize_results_finalized_noop demo_config demo_finalized demo_results).
  - apply (bool_decide_unpack _). vm_compute. exact I.
  - intros key l Hin. unfold demo_results in Hin.
    repeat (apply elem_of_cons in Hin as [[= -> ->]|Hin]);
      [| | | |by apply elem_of_nil in Hin];
      (eexists; split; [reflexivity|]; split;
       [split; [apply (bool_decide_unpack _); vm_compute; exact I
               |repeat constructor]
       |split; [apply has_col_false; reflexivity
               |split; [apply has_col_elem_of; reflexivity|]]]);
      intros c Hc; simpl in Hc;
      repeat (apply elem_of_cons in Hc as [->|Hc]; [reflexivity|]);
      by apply elem_of_nil in Hc.
Defined.

(** * The reconciler *)

(** C8. Reconciling two tables without rows that have the merge keys and
    the comparison columns returns, without raising, the four result tables,
    each without rows. *)
Theorem reconcile_empty_inputs self h li lp left right :
  let cfg := self_config self in
  h !! li = Some left -> h !! lp = Some right ->
  rows left = [] -> rows right = [] ->
  merge_ready (merge_key cfg) (merge_suffixes cfg) (merge_indicator cfg)
    (columns left) (columns right) = true ->
  comparison_ready cfg (columns left) (columns right) = true ->
  exists h' final,
    reconcile self li lp h = (h', Ok final) /\
    map fst final = ["matched"; "only_internal"; "only_provider"; "mismatched"] /\
    forall key, key ∈ map fst final ->
      exists l df, dict_get final key = Some l /\ h' !! l = Some df /\ rows df = [].
Proof.
  intros cfg Hl Hr El Er Hready Hcmp.
  assert (Hmerge : mergeable cfg left right = true).
  { unfold mergeable. rewrite Hready, key_types_clash_no_rows by auto. reflexivity. }
  destruct (reconcile_run self h li lp left right Hl Hr Hmerge)
    as (ext & l1 & l2 & l3 & l4 & Hrun & H1 & H2 & H3 & H4).
  { by apply merged_frame_classifiable. }
  fold cfg in H1, H2, H3, H4.
  assert (Hempty : rows (merged_frame cfg left right) = []).
  { unfold merged_frame, joined_rows, joined_pairs. simpl. by rewrite El, Er. }
  eexists (h ++ ext), _. split; [exact Hrun|]. split; [reflexivity|].
  intros key Hkey. simpl in Hkey.
  repeat (apply elem_of_cons in Hkey as [->|Hkey]);
    [| | | |by apply elem_of_nil in Hkey];
    eexists _, _; (split; [reflexivity|]); (split; [eassumption|]);
    by apply rows_finalize_frame_nil, rows_category_frame_nil.
Qed.

Lemma reconcile_empty_inputs_witness :
  rows empty_internal = [] /\ rows empty_provider = [] /\
  exists h' final,
    reconcile (mkReconciler demo_config) 0 1 [empty_internal; empty_provider]
    = (h', Ok final) /\
    map fst final = ["matched"; "only_internal"; "only_provider"; "mismatched"] /\
    forall key, key ∈ map fst final ->
      exists l df, dict_get final key = Some l /\ h' !! l = Some df /\ rows df = [].
Proof.
  split; [reflexivity|]. split; [reflexivity|].
  apply (reconcile_empty_inputs (mkReconciler demo_config)
           [empty_internal; empty_provider] 0 1 empty_internal empty_provider).
  - reflexivity.
  - reflexivity.
  - reflexivity.
  - reflexivity.
  - vm_compute. reflexivity.
  - vm_compute. reflexivity.
Defined.

(** C9. A reconciliation run leaves its two input tables as they were,
    whether it returns or raises: the merge creates a new table, the
    classifier tags copies, the finalizer renames new selections. *)
Theorem reconcile_inputs_unchanged self h li lp left right :
  h !! li = Some left -> h !! lp = Some right ->
  (reconcile self li lp h).1 !! li = Some left /\
  (reconcile self li lp h).1 !! lp = Some right.
Proof.
  intros Hl Hr.
  destruct (keeps_reconcile h self li lp h) as [Hpre _]; [done|].
  split; by eapply prefix_lookup_Some.
Qed.

Lemma reconcile_inputs_unchanged_witness :
  (reconcile (mkReconciler demo_config) 0 1 [demo_internal; demo_provider]).1 !! 0
  = Some demo_internal /\
  (reconcile (mkReconciler demo_config) 0 1 [demo_internal; demo_provider]).1 !! 1
  = Some demo_provider.
Proof.
  apply (reconcile_inputs_unchanged (mkReconciler demo_config)
           [demo_internal; demo_provider] 0 1 demo_internal demo_provider);
    reflexivity.
Defined.

(** * Further properties of the classifier *)

Lemma first_missing_pair_col_spec cols pairs c :
  first_missing_pair_col cols pairs = Some c ->
  (c ∉ cols) /\ exists p, p ∈ pairs /\ (c = left_col p \/ c = right_col p).
Proof.
  induction pairs as [|p ps IH]; simpl; [discriminate|].
  destruct (has_col (left_col p) cols) eqn:El; simpl.
  - destruct (has_col (right_col p) cols) eqn:Er; simpl.
    + intros H. destruct (IH H) as (Hc & q & Hq & Hcq).
      split; [done|]. exists q. split; [by right|done].
    + intros [= <-]. split; [by apply has_col_false|].
      exists p. split; [by left|by right].
  - intros [= <-]. split; [by apply has_col_false|].
    exists p. split; [by left|by left].
Qed.

Lemma first_missing_pair_col_None cols pairs :
  first_missing_pair_col cols pairs = None -> pairs_present cols pairs = true.
Proof.
  induction pairs as [|p ps IH]; simpl; [done|].
  destruct (has_col (left_col p) cols); simpl; [|discriminate].
  destruct (has_col (right_col p) cols); simpl; [|discriminate]. exact IH.
Qed.

Lemma first_unreadable_None cfg df :
  first_unreadable cfg (columns df) = None <-> classifiable cfg df = true.
Proof.
  unfold first_unreadable, classifiable.
  destruct (has_col (merge_indicator cfg) (columns df)); simpl; [|by split].
  split; [apply first_missing_pair_col_None|].
  generalize (comparison_pairs cfg). intros pairs.
  induction pairs as [|p ps IH]; simpl; [done|].
  intros [[-> ->]%andb_prop Hps]%andb_prop. simpl. by apply IH.
Qed.

Lemma match_loop_raises h m df pairs c (acc : mask) :
  h !! m = Some df ->
  first_missing_pair_col (columns df) pairs = Some c ->
  for_each pairs
    (fun match_cond pair =>
       l <- getitem_col m (left_col pair) ;;
       r <- getitem_col m (right_col pair) ;;
       ret (mask_and match_cond (series_eq l r)))
    acc h
  = (h, Raise (KeyError c)).
Proof.
  intros Hm. revert acc. induction pairs as [|p ps IH]; intros acc; simpl;
    [discriminate|].
  destruct (has_col (left_col p) (columns df)) eqn:El; simpl.
  - destruct (has_col (right_col p) (columns df)) eqn:Er; simpl.
    + intros Hc. erewrite bind_run; [by apply IH|].
      erewrite bind_run by (by apply getitem_col_ok).
      erewrite bind_run by (by apply getitem_col_ok). reflexivity.
    + intros [= <-]. erewrite bind_raise; [reflexivity|].
      erewrite bind_run by (by apply getitem_col_ok).
      erewrite bind_raise; [reflexivity|].
      by rewrite (getitem_col_run _ _ _ _ Hm), df_getitem_col_missing.
  - intros [= <-]. erewrite bind_raise; [reflexivity|].
    erewrite bind_raise; [reflexivity|].
    by rewrite (getitem_col_run _ _ _ _ Hm), df_getitem_col_missing.
Qed.

Lemma classify_merged_rows_raises cfg h m df c :
  h !! m = Some df ->
  first_unreadable cfg (columns df) = Some c ->
  classify_merged_rows m cfg h = (h, Raise (KeyError c)).
Proof.
  intros Hm. unfold first_unreadable, classify_merged_rows.
  destruct (has_col (merge_indicator cfg) (columns df)) eqn:Ei.
  - intros Hc. erewrite bind_run by (by apply getitem_col_ok).
    erewrite bind_raise; [reflexivity|]. by apply (match_loop_raises _ _ df).
  - intros [= <-]. erewrite bind_raise; [reflexivity|].
    by rewrite (getitem_col_run _ _ _ _ Hm), df_getitem_col_missing.
Qed.

Lemma first_unreadable_spec cfg cols c :
  first_unreadable cfg cols = Some c -> (c ∉ cols) /\ c ∈ classifier_columns cfg.
Proof.
  unfold first_unreadable, classifier_columns.
  destruct (has_col (merge_indicator cfg) cols) eqn:Ei.
  - intros (Hc & p & Hp & Hcp)%first_missing_pair_col_spec. split; [done|].
    right. apply list_elem_of_In, in_flat_map. exists p.
    split; [by apply list_elem_of_In|]. destruct Hcp as [->| ->]; simpl; auto.
  - intros [= <-]. split; [by apply has_col_false|by left].
Qed.

(** X1. When the merged table lacks a column the classifier reads (the
    marker, or the left or right column of a comparison pair), the
    classifier raises [KeyError] for such a column and has created no
    table. *)
Theorem classify_missing_column_raises cfg h m df :
  h !! m = Some df ->
  classifiable cfg df = false ->
  exists c,
    c ∈ classifier_columns cfg /\ (c ∉ columns df) /\
    classify_merged_rows m cfg h = (h, Raise (KeyError c)).
Proof.
  intros Hm Hc.
  destruct (first_unreadable cfg (columns df)) as [c|] eqn:E.
  - exists c. destruct (first_unreadable_spec _ _ _ E) as [H1 H2].
    split; [done|]. split; [done|]. by apply (classify_merged_rows_raises _ _ _ df).
  - apply first_unreadable_None in E. congruence.
Qed.

Lemma classify_missing_column_raises_witness :
  exists c,
    c ∈ classifier_columns demo_config /\ (c ∉ columns demo_internal) /\
    classify_merged_rows 0 demo_config [demo_internal]
    = ([demo_internal], Raise (KeyError c)).
Proof.
  apply (classify_missing_column_raises demo_config [demo_internal] 0 demo_internal);
    reflexivity.
Defined.




Lemma classify_tables cfg h m df :
  h !! m = Some df ->
  classifiable cfg df = true ->
  exists h' res,
    classify_merged_rows m cfg h = (h', Ok res) /\
    map fst res = category_keys /\
    table_of h' res "matched" = Some (matched_frame cfg df) /\
    table_of h' res "only_internal" = Some (only_internal_frame cfg df) /\
    table_of h' res "only_provider" = Some (only_provider_frame cfg df) /\
    table_of h' res "mismatched" = Some (mismatched_frame cfg df).
Proof.
  intros Hm Hc.
  destruct (classify_merged_rows_run cfg m df h Hm Hc)
    as (ext & l1 & l2 & l3 & l4 & Hrun & H1 & H2 & H3 & H4).
  eexists (h ++ ext), _. split; [exact Hrun|]. split; [reflexivity|].
  unfold table_of. simpl. by rewrite H1, H2, H3, H4.
Qed.

Lemma dict_get_Some_elem_of {V} (d : list (string * V)) k v :
  dict_get d k = Some v -> (k, v) ∈ d.
Proof.
  induction d as [|[k0 v0] d IH]; simpl; [discriminate|].
  destruct (String.eqb k k0) eqn:E.
  - apply String.eqb_eq in E. intros [= ->]. subst. by left.
  - intros H. right. by apply IH.
Qed.

Lemma filter_sublist {X} (P : X -> bool) (xs : list X) : List.filter P xs `sublist_of` xs.
Proof.
  induction xs as [|x xs IH]; simpl; [constructor|].
  destruct (P x); by constructor.
Qed.

Lemma category_frame_tagged df keep label :
  "result" ∉ columns df ->
  category_frame df keep label
  = mkDF (columns df ++ ["result"])
      (map (fun r => (fst r, snd r ++ [Str label]))
         (List.filter (fun r => keep (snd r)) (rows df))).
Proof.
  intros Hr%has_col_false. unfold category_frame, df_setitem. simpl.
  unfold has_col in Hr. by destruct (col_pos "result" (columns df)).
Qed.

(** X3. Every table the classifier returns holds rows of the merged table
    in the order of the merged table, under their index labels, each
    extended by one cell: the label the configuration gives to the
    category, under the new column [result]. *)
Theorem classify_tables_tagged_in_order cfg h m df :
  h !! m = Some df ->
  classifiable cfg df = true ->
  "result" ∉ columns df ->
  exists h' res,
    classify_merged_rows m cfg h = (h', Ok res) /\
    forall key label, category_label cfg key = Some label ->
      exists t selected,
        table_of h' res key = Some t /\
        selected `sublist_of` rows df /\
        columns t = columns df ++ ["result"] /\
        rows t = map (fun r => (fst r, snd r ++ [Str label])) selected.
Proof.
  intros Hm Hc Hr.
  destruct (classify_tables cfg h m df Hm Hc)
    as (h' & res & Hrun & _ & H1 & H2 & H3 & H4).
  exists h', res. split; [exact Hrun|]. intros key label Hlab.
  apply dict_get_Some_elem_of in Hlab.
  repeat (apply elem_of_cons in Hlab as [[= -> ->]|Hlab]);
    [| | | |by apply elem_of_nil in Hlab];
    eexists _, _; (split; [eassumption|]);
    unfold matched_frame, only_internal_frame, only_provider_frame, mismatched_frame;
    rewrite category_frame_tagged by done;
    (split; [apply filter_sublist|by split]).
Qed.

Lemma classify_tables_tagged_in_order_witness :
  exists h' res,
    classify_merged_rows 0 demo_config [demo_merged] = (h', Ok res) /\
    forall key label, category_label demo_config key = Some label ->
      exists t selected,
        table_of h' res key = Some t /\
        selected `sublist_of` rows demo_merged /\
        columns t = columns demo_merged ++ ["result"] /\
        rows t = map (fun r => (fst r, snd r ++ [Str label])) selected.
Proof.
  apply (classify_tables_tagged_in_order demo_config [demo_merged] 0 demo_merged).
  - reflexivity.
  - vm_compute. reflexivity.
  - apply has_col_false. reflexivity.
Defined.

Lemma length_rows_category_frame df keep label :
  length (rows (category_frame df keep label))
  = length (List.filter (fun r => keep (snd r)) (rows df)).
Proof.
  unfold category_frame, df_setitem. simpl.
  destruct (col_pos "result" (columns df)); simpl; by rewrite length_map.
Qed.

Lemma filter_split_length {X} (B F M N : X -> bool) (xs : list X) :
  (forall x, M x = B x && F x) -> (forall x, N x = B x && negb (F x)) ->
  length (List.filter M xs) + length (List.filter N xs) = length (List.filter B xs).
Proof.
  intros HM HN. induction xs as [|x xs IH]; simpl; [reflexivity|].
  rewrite HM, HN. destruct (B x), (F x); simpl; lia.
Qed.

(** X4. The sizes of the four tables: with at least one comparison pair,
    matched and mismatched together have as many rows as the merged table
    has rows marked [both]; [only_internal] has as many as are marked
    [left_only] and [only_provider] as many as are marked [right_only]. *)
Theorem classify_table_sizes cfg h m df :
  h !! m = Some df ->
  classifiable cfg df = true ->
  comparison_pairs cfg <> [] ->
  exists h' res t1 t2 t3 t4,
    classify_merged_rows m cfg h = (h', Ok res) /\
    table_of h' res "matched" = Some t1 /\
    table_of h' res "only_internal" = Some t2 /\
    table_of h' res "only_provider" = Some t3 /\
    table_of h' res "mismatched" = Some t4 /\
    length (rows t1) + length (rows t4)
      = count_marker cfg df (both (merge_status cfg)) /\
    length (rows t2) = count_marker cfg df (left_only (merge_status cfg)) /\
    length (rows t3) = count_marker cfg df (right_only (merge_status cfg)).
Proof.
  intros Hm Hc Hne.
  destruct (classify_tables cfg h m df Hm Hc)
    as (h' & res & Hrun & _ & H1 & H2 & H3 & H4).
  eexists h', res, _, _, _, _.
  split; [exact Hrun|]. do 4 (split; [eassumption|]).
  unfold matched_frame, only_internal_frame, only_provider_frame, mismatched_frame.
  rewrite !length_rows_category_frame. unfold count_marker. repeat split.
  apply (filter_split_length _
           (fun r => forallb (pair_equal df (snd r)) (comparison_pairs cfg))).
  - intros r. reflexivity.
  - intros r. unfold is_mismatched_row.
    destruct (comparison_pairs cfg) as [|p ps] eqn:E; [done|].
    by rewrite existsb_pair_differs.
Qed.

Lemma classify_table_sizes_witness :
  comparison_pairs demo_config <> [] /\
  exists h' res t1 t2 t3 t4,
    classify_merged_rows 0 demo_config [demo_merged] = (h', Ok res) /\
    table_of h' res "matched" = Some t1 /\
    table_of h' res "only_internal" = Some t2 /\
    table_of h' res "only_provider" = Some t3 /\
    table_of h' res "mismatched" = Some t4 /\
    length (rows t1) + length (rows t4)
      = count_marker demo_config demo_merged (both (merge_status demo_config)) /\
    length (rows t2)
      = count_marker demo_config demo_merged (left_only (merge_status demo_config)) /\
    length (rows t3)
      = count_marker demo_config demo_merged (right_only (merge_status demo_config)).
Proof.
  split; [discriminate|].
  apply (classify_table_sizes demo_config [demo_merged] 0 demo_merged).
  - reflexivity.
  - vm_compute. reflexivity.
  - discriminate.
Defined.

(** X5. The classifier changes no table that existed before it ran, the
    merged table included, whether it returns or raises: it tags copies. *)
Theorem classify_leaves_tables cfg h m l df0 :
  h !! l = Some df0 ->
  (classify_merged_rows m cfg h).1 !! l = Some df0.
Proof.
  intros Hl. destruct (keeps_classify_merged_rows h m cfg h) as [Hpre _]; [done|].
  by eapply prefix_lookup_Some.
Qed.

Lemma classify_leaves_tables_witness :
  (classify_merged_rows 0 demo_config [demo_merged]).1 !! 0 = Some demo_merged.
Proof.
  apply (classify_leaves_tables demo_config [demo_merged] 0 0 demo_merged).
  reflexivity.
Defined.

(** * Further properties of the merger *)

Section JoinMembers.
Context {K A B C : Type} `{EqDecision K}.
Variables (kl : A -> K) (kr : B -> K) (kc : C -> K).
Variables (pair : A -> B -> C) (left_alone : A -> C) (right_alone : B -> C).
Hypothesis kc_pair : forall a b, kc (pair a b) = kl a.
Hypothesis kc_left : forall a, kc (left_alone a) = kl a.
Hypothesis kc_right : forall b, kc (right_alone b) = kr b.

Let matches (a : A) (b : B) : bool := bool_decide (kl a = kr b).





End JoinMembers.









(** X9. When the inputs have the merge keys but one of them already has a
    column under the marker's label, pandas refuses the merge; the handler
    of [merge_dataframes] only handles [KeyError], so this exception leaves
    [merge_dataframes] and [reconcile] as it is, and no table is created. *)
Theorem merge_marker_label_taken self h li lp left right :
  let cfg := self_config self in
  h !! li = Some left -> h !! lp = Some right ->
  (forall k, k ∈ merge_key cfg -> k ∈ columns left /\ k ∈ columns right) ->
  merge_indicator cfg ∈ columns left \/ merge_indicator cfg ∈ columns right ->
  exists reason,
    merge_dataframes li lp cfg h = (h, Raise (PandasError reason)) /\
    reconcile self li lp h = (h, Raise (PandasError reason)).
Proof.
  intros cfg Hl Hr Hkeys Hind.
  assert (Hnone : first_missing_key (columns left) (columns right) (merge_key cfg) = None).
  { apply first_missing_key_None, forallb_forall. intros k Hk%list_elem_of_In.
    destruct (Hkeys k Hk) as [H1 H2]. apply has_col_elem_of in H1, H2.
    by rewrite H1, H2. }
  assert (Hclash : has_col (merge_indicator cfg) (columns left)
                   || has_col (merge_indicator cfg) (columns right) = true).
  { apply orb_true_iff. destruct Hind as [H|H]; apply has_col_elem_of in H; auto. }
  assert (E : exists reason,
                merge_dataframes li lp cfg h = (h, Raise (PandasError reason))).
  { unfold merge_dataframes, try_except_KeyError, merge.
    unfold bind, load, lift, alloc, ret, raise, df_merge_outer. rewrite Hl, Hr, Hnone.
    destruct (key_types_clash (merge_key cfg) left right); [by eexists|].
    cbn [existsb]. rewrite Hclash. by eexists. }
  destruct E as (reason & E). exists reason.
  split; [exact E|]. unfold reconcile. fold cfg. by rewrite (bind_raise _ _ _ _ _ E).
Qed.

Lemma merge_marker_label_taken_witness :
  exists reason,
    merge_dataframes 0 1 demo_config [demo_internal; demo_merged]
    = ([demo_internal; demo_merged], Raise (PandasError reason)) /\
    reconcile (mkReconciler demo_config) 0 1 [demo_internal; demo_merged]
    = ([demo_internal; demo_merged], Raise (PandasError reason)).
Proof.
  apply (merge_marker_label_taken (mkReconciler demo_config)
           [demo_internal; demo_merged] 0 1 demo_internal demo_merged).
  - reflexivity.
  - reflexivity.
  - intros k Hk. simpl in Hk. apply list_elem_of_singleton in Hk. subst k.
    split; apply has_col_elem_of; reflexivity.
  - right. apply has_col_elem_of. reflexivity.
Defined.

Lemma numbers_only_numeric v vals :
  numbers_only (v :: vals) -> numeric_column (v :: vals) = true.
Proof.
  intros Hn. unfold numeric_column, dtype_of.
  assert (E : existsb is_Str (v :: vals) = false).
  { apply not_true_is_false. intros (x & Hx & Hs)%existsb_exists.
    destruct x; try discriminate.
    apply list_elem_of_In in Hx. by apply (Hn (Str s) Hx s). }
  rewrite E. by destruct (forallb is_Int (v :: vals)).
Qed.

Lemma text_only_text vals : text_only vals -> text_column vals = true.
Proof.
  intros [(s & Hs) Hn]. unfold text_column. apply andb_true_intro. split.
  - apply existsb_exists. exists (Str s). split; [by apply list_elem_of_In|done].
  - apply negb_true_iff, not_true_is_false. intros (x & Hx & Hi)%existsb_exists.
    destruct x; try discriminate.
    apply list_elem_of_In in Hx. by apply (Hn (Int z) Hx z).
Qed.

Lemma column_values_nonempty df c : rows df <> [] -> column_values df c <> [].
Proof. unfold column_values. by destruct (rows df). Qed.

(** X19. When both tables have rows and a merge key is a column of numbers
    in one table and a column of text in the other, pandas refuses the
    merge; the handler of [merge_dataframes] only handles [KeyError], so
    the exception leaves [merge_dataframes] and [reconcile] as it is, and
    no table is created. *)
Theorem merge_key_types_refused self h li lp left right k :
  let cfg := self_config self in
  h !! li = Some left -> h !! lp = Some right ->
  (forall k, k ∈ merge_key cfg -> k ∈ columns left /\ k ∈ columns right) ->
  rows left <> [] -> rows right <> [] ->
  k ∈ merge_key cfg ->
  (numbers_only (column_values left k) /\ text_only (column_values right k))
  \/ (text_only (column_values left k) /\ numbers_only (column_values right k)) ->
  exists reason,
    merge_dataframes li lp cfg h = (h, Raise (PandasError reason)) /\
    reconcile self li lp h = (h, Raise (PandasError reason)).
Proof.
  intros cfg Hl Hr Hkeys Hrl Hrr Hk Htypes.
  assert (Hnone : first_missing_key (columns left) (columns right) (merge_key cfg) = None).
  { apply first_missing_key_None, forallb_forall. intros k' Hk'%list_elem_of_In.
    destruct (Hkeys k' Hk') as [H1 H2]. apply has_col_elem_of in H1, H2.
    by rewrite H1, H2. }
  assert (Hclash : key_types_clash (merge_key cfg) left right = true).
  { unfold key_types_clash.
    pose proof (column_values_nonempty left k Hrl) as Hcl.
    pose proof (column_values_nonempty right k Hrr) as Hcr.
    destruct (rows left) as [|rl rsl]; [done|].
    destruct (rows right) as [|rr rsr]; [done|].
    apply existsb_exists. exists k. split; [by apply list_elem_of_In|].
    cbv zeta. apply orb_true_iff.
    destruct (column_values left k) as [|vl vsl]; [done|].
    destruct (column_values right k) as [|vr vsr]; [done|].
    destruct Htypes as [[Hn Ht]|[Ht Hn]]; [left|right]; apply andb_true_intro;
      split; (by apply numbers_only_numeric) || (by apply text_only_text). }
  assert (E : exists reason,
                merge_dataframes li lp cfg h = (h, Raise (PandasError reason))).
  { unfold merge_dataframes, try_except_KeyError, merge.
    unfold bind, load, lift, alloc, ret, raise, df_merge_outer.
    rewrite Hl, Hr, Hnone, Hclash. by eexists. }
  destruct E as (reason & E). exists reason.
  split; [exact E|]. unfold reconcile. fold cfg. by rewrite (bind_raise _ _ _ _ _ E).
Qed.

Lemma merge_key_types_refused_witness :
  exists reason,
    merge_dataframes 0 1 demo_config [numbered_internal; demo_provider]
    = ([numbered_internal; demo_provider], Raise (PandasError reason)) /\
    reconcile (mkReconciler demo_config) 0 1 [numbered_internal; demo_provider]
    = ([numbered_internal; demo_provider], Raise (PandasError reason)).
Proof.
  apply (merge_key_types_refused (mkReconciler demo_config)
           [numbered_internal; demo_provider] 0 1 numbered_internal demo_provider
           "transaction_reference").
  - reflexivity.
  - reflexivity.
  - intros k Hk. simpl in Hk. apply list_elem_of_singleton in Hk. subst k.
    split; apply has_col_elem_of; reflexivity.
  - discriminate.
  - discriminate.
  - by left.
  - left. split.
    + intros v Hv s. vm_compute in Hv.
      repeat (apply elem_of_cons in Hv as [->|Hv]; [discriminate|]).
      by apply elem_of_nil in Hv.
    + split.
      * exists "T1". vm_compute. by left.
      * intros v Hv z. vm_compute in Hv.
        repeat (apply elem_of_cons in Hv as [->|Hv]; [discriminate|]).
        by apply elem_of_nil in Hv.
Defined.

(** * Further properties of the finalizer *)

Lemma first_missing_app xs have c :
  (forall x, x ∈ xs -> x ∈ have) -> c ∉ have ->
  first_missing (xs ++ [c]) have = Some c.
Proof.
  intros Hxs Hc. induction xs as [|x xs IH]; simpl.
  - apply has_col_false in Hc. by rewrite Hc.
  - assert (Hx : has_col x have = true) by (apply has_col_elem_of, Hxs; by left).
    rewrite Hx. apply IH. intros y Hy. apply Hxs. by right.
Qed.

Lemma finalize_item_raises cfg h l df key final :
  h !! l = Some df ->
  "result" ∉ columns df ->
  (df_columns <- get_columns l ;;
   let cols := List.filter (fun col => negb (String.eqb col (merge_indicator cfg)))
                 df_columns in
   let cols := if has_col "result" cols then cols else cols ++ ["result"] in
   df' <- getitem_cols l cols ;;
   rename_inplace df' (rename_columns cfg) ;;;
   ret (dict_set final key df')) h
  = (h, Raise (KeyError "result")).
Proof.
  intros Hl Hr. unfold get_columns.
  erewrite bind_run; cycle 1.
  { erewrite bind_run; [reflexivity|]. unfold load. by rewrite Hl. }
  cbv zeta.
  assert (Hsub : forall c,
            c ∈ List.filter (fun col => negb (String.eqb col (merge_indicator cfg)))
                  (columns df) -> c ∈ columns df).
  { intros c Hc%list_elem_of_In%filter_In. apply list_elem_of_In. tauto. }
  assert (E : has_col "result"
                (List.filter (fun col => negb (String.eqb col (merge_indicator cfg)))
                   (columns df)) = false).
  { apply has_col_false. intros Hin. by apply Hr, Hsub. }
  rewrite E. erewrite bind_raise; [reflexivity|].
  unfold getitem_cols. erewrite bind_run by (unfold load; by rewrite Hl).
  erewrite bind_raise; [reflexivity|].
  unfold lift, df_getitem_cols. by rewrite first_missing_app.
Qed.

Lemma finalize_loop_raises cfg items : forall h final,
  (forall key l, (key, l) ∈ items -> exists df, h !! l = Some df) ->
  (exists key l df, (key, l) ∈ items /\ h !! l = Some df /\ "result" ∉ columns df) ->
  exists ext,
    for_each items
      (fun final item =>
         df_columns <- get_columns (snd item) ;;
         let cols := List.filter (fun col => negb (String.eqb col (merge_indicator cfg)))
                       df_columns in
         let cols := if has_col "result" cols then cols else cols ++ ["result"] in
         df' <- getitem_cols (snd item) cols ;;
         rename_inplace df' (rename_columns cfg) ;;;
         ret (dict_set final (fst item) df'))
      final h
    = (h ++ ext, Raise (KeyError "result")).
Proof.
  induction items as [|[key l] items IH]; intros h final Hlive (k0 & l0 & df0 & Hin & Hl0 & Hr0).
  - by apply elem_of_nil in Hin.
  - destruct (Hlive key l) as [df Hl]; [by left|]. simpl.
    destruct (has_col "result" (columns df)) eqn:E.
    + apply has_col_elem_of in E.
      erewrite bind_run by (by apply finalize_item_run).
      apply elem_of_cons in Hin as [[= -> ->]|Hin]; [congruence|].
      destruct (IH (h ++ [finalize_frame cfg df]) (dict_set final key (length h)))
        as [ext Hext].
      * intros k' l' Hin'. destruct (Hlive k' l') as [df' Hl']; [by right|].
        exists df'. by apply lookup_app_l_Some.
      * exists k0, l0, df0. split; [done|]. split; [|done].
        by apply lookup_app_l_Some.
      * exists ([finalize_frame cfg df] ++ ext). rewrite app_assoc. exact Hext.
    + apply has_col_false in E. exists [].
      erewrite bind_raise by (by apply (finalize_item_raises _ _ _ df)).
      by rewrite app_nil_r.
Qed.

(** X10. The finalizer does not add a missing [result] column: when the
    dictionary holds a table without it, the selection of the columns fails
    and the finalizer raises [KeyError] for [result]. *)
Theorem finalize_missing_result_raises cfg h results :
  (forall key l, (key, l) ∈ results -> exists df, h !! l = Some df) ->
  (exists key l df, (key, l) ∈ results /\ h !! l = Some df /\ "result" ∉ columns df) ->
  exists h', finalize_results results cfg h = (h', Raise (KeyError "result")).
Proof.
  intros Hlive Hmiss.
  destruct (finalize_loop_raises cfg results h [] Hlive Hmiss) as [ext Hext].
  exists (h ++ ext). exact Hext.
Qed.

Lemma finalize_missing_result_raises_witness :
  exists h',
    finalize_results [("matched", 0)] demo_config [demo_merged]
    = (h', Raise (KeyError "result")).
Proof.
  apply (finalize_missing_result_raises demo_config [demo_merged] [("matched", 0)]).
  - intros key l Hin. apply list_elem_of_singleton in Hin. injection Hin as -> ->.
    by exists demo_merged.
  - exists "matched", 0, demo_merged. split; [by left|]. split; [reflexivity|].
    apply has_col_false. reflexivity.
Defined.

Lemma dict_set_fresh {V} (d : list (string * V)) k v :
  k ∉ map fst d -> dict_set d k v = d ++ [(k, v)].
Proof.
  induction d as [|[k0 v0] d IH]; simpl; intros Hk; [reflexivity|].
  apply not_elem_of_cons in Hk as [Hne Hk]. apply String.eqb_neq in Hne.
  by rewrite Hne, IH.
Qed.

Lemma dict_set_all_fresh {V} (kvs d : list (string * V)) :
  NoDup (map fst d ++ map fst kvs) -> dict_set_all d kvs = d ++ kvs.
Proof.
  unfold dict_set_all. revert d.
  induction kvs as [|[k v] kvs IH]; intros d Hnd; simpl; [by rewrite app_nil_r|].
  simpl in Hnd. rewrite dict_set_fresh.
  - rewrite IH; [by rewrite <- app_assoc|].
    rewrite map_app. simpl. by rewrite <- app_assoc.
  - apply NoDup_app in Hnd as (_ & Hd & _). intros Hk. apply (Hd k Hk). by left.
Qed.

(** X11. On a dictionary of tables that have a [result] column, the
    finalizer returns a dictionary with the same keys in the same order,
    whose tables are new objects, one per key, created after the objects
    that existed: the input tables are not reused. *)
Theorem finalize_same_keys_new_tables cfg h results :
  NoDup (map fst results) ->
  (forall key l, (key, l) ∈ results ->
     exists df, h !! l = Some df /\ "result" ∈ columns df) ->
  exists h' final,
    finalize_results results cfg h = (h', Ok final) /\
    map fst final = map fst results /\
    map snd final = seq (length h) (length results) /\
    length h' = length h + length results.
Proof.
  intros Hnd Hlive.
  destruct (Forall2_choice
              (fun (kv : string * nat) df =>
                 h !! snd kv = Some df /\ "result" ∈ columns df) results)
    as [dfs Hdfs].
  { intros [key l] Hin. by apply Hlive in Hin. }
  eexists (h ++ map (finalize_frame cfg) dfs), _. split.
  { unfold finalize_results. by apply finalize_loop_run. }
  assert (Hlen : length (map fst results) = length (seq (length h) (length results)))
    by (by rewrite length_map, length_seq).
  rewrite dict_set_all_fresh; cycle 1.
  { simpl. rewrite fst_zip by lia. exact Hnd. }
  simpl. rewrite fst_zip, snd_zip by lia. repeat split.
  rewrite length_app, length_map. f_equal. symmetry. by eapply Forall2_length.
Qed.

Lemma finalize_same_keys_new_tables_witness :
  exists h' final,
    finalize_results demo_results demo_config demo_classified = (h', Ok final) /\
    map fst final = map fst demo_results /\
    map snd final = seq (length demo_classified) (length demo_results) /\
    length h' = length demo_classified + length demo_results.
Proof.
  apply (finalize_same_keys_new_tables demo_config demo_classified demo_results).
  - apply (bool_decide_unpack _). vm_compute. exact I.
  - intros key l Hin. unfold demo_results in Hin.
    repeat (apply elem_of_cons in Hin as [[= -> ->]|Hin]);
      [| | | |by apply elem_of_nil in Hin];
      (eexists; split; [reflexivity|apply has_col_elem_of; reflexivity]).
Defined.

(** X12. The finalizer changes no table that existed before it ran, the
    classified tables included, whether it returns or raises: it renames
    the selections it has just made. *)
Theorem finalize_leaves_tables cfg h results l df0 :
  h !! l = Some df0 ->
  (finalize_results results cfg h).1 !! l = Some df0.
Proof.
  intros Hl. destruct (keeps_finalize_results h results cfg h) as [Hpre _]; [done|].
  by eapply prefix_lookup_Some.
Qed.

Lemma finalize_leaves_tables_witness :
  (finalize_results demo_results demo_config demo_classified).1 !! 0
  = Some (matched_frame demo_config demo_merged).
Proof.
  apply (finalize_leaves_tables demo_config demo_classified demo_results 0
           (matched_frame demo_config demo_merged)).
  reflexivity.
Defined.

(** X13. After finalization no column carries the marker's label, provided
    the marker is not itself labelled [result] and the rename map gives the
    marker's label to no other column of the table. *)
Theorem finalize_no_marker_column cfg h results :
  NoDup (map fst results) ->
  merge_indicator cfg <> "result" ->
  (forall key l, (key, l) ∈ results ->
     exists df, h !! l = Some df /\ "result" ∈ columns df /\
       forall c, c ∈ columns df -> c <> merge_indicator cfg ->
         rename_label (rename_columns cfg) c <> merge_indicator cfg) ->
  exists h' final,
    finalize_results results cfg h = (h', Ok final) /\
    forall key l, (key, l) ∈ results ->
      exists l' df', dict_get final key = Some l' /\ h' !! l' = Some df' /\
        merge_indicator cfg ∉ columns df'.
Proof.
  intros Hnd Hne Hlive.
  destruct (finalize_results_run cfg h results Hnd) as (ext & final & Hrun & Hout).
  { intros key l Hin. destruct (Hlive key l Hin) as (df & ? & ? & _). by exists df. }
  exists (h ++ ext), final. split; [exact Hrun|].
  intros key l Hin. destruct (Hlive key l Hin) as (df & Hl & Hr & Hren).
  destruct (Hout key l df Hin Hl) as (l' & Hget & Hl').
  exists l', (finalize_frame cfg df). split; [done|]. split; [done|].
  unfold finalize_frame, df_rename. cbn [columns].
  rewrite finalize_cols_drop by done.
  intros (c & Hc & Hin')%list_elem_of_fmap.
  apply list_elem_of_In, filter_In in Hin' as [Hin' Hcm].
  apply negb_true_iff, String.eqb_neq in Hcm.
  apply (Hren c); [by apply list_elem_of_In|done|done].
Qed.

Lemma finalize_no_marker_column_witness :
  exists h' final,
    finalize_results demo_results demo_config demo_classified = (h', Ok final) /\
    forall key l, (key, l) ∈ demo_results ->
      exists l' df', dict_get final key = Some l' /\ h' !! l' = Some df' /\
        merge_indicator demo_config ∉ columns df'.
Proof.
  apply (finalize_no_marker_column demo_config demo_classified demo_results).
  - apply (bool_decide_unpack _). vm_compute. exact I.
  - discriminate.
  - intros key l Hin. unfold demo_results in Hin.
    repeat (apply elem_of_cons in Hin as [[= -> ->]|Hin]);
      [| | | |by apply elem_of_nil in Hin];
      (eexists; split; [reflexivity|]; split; [apply has_col_elem_of; reflexivity|]);
      intros c Hc Hcm; simpl in Hc;
      repeat (apply elem_of_cons in Hc as [->|Hc]; [discriminate || done|]);
      by apply elem_of_nil in Hc.
Defined.

(** * Further properties of the reconciler *)

Lemma columns_category_frame df keep label :
  columns (category_frame df keep label)
  = if has_col "result" (columns df) then columns df else columns df ++ ["result"].
Proof.
  unfold category_frame, df_setitem, has_col. simpl.
  by destruct (col_pos "result" (columns df)).
Qed.


Lemma reconcile_tables self h li lp left right :
  let cfg := self_config self in
  let mdf := merged_frame cfg left right in
  h !! li = Some left -> h !! lp = Some right ->
  mergeable cfg left right = true ->
  classifiable cfg mdf = true ->
  exists h' final,
    reconcile self li lp h = (h', Ok final) /\
    map fst final = category_keys /\
    table_of h' final "matched" = Some (finalize_frame cfg (matched_frame cfg mdf)) /\
    table_of h' final "only_internal"
      = Some (finalize_frame cfg (only_internal_frame cfg mdf)) /\
    table_of h' final "only_provider"
      = Some (finalize_frame cfg (only_provider_frame cfg mdf)) /\
    table_of h' final "mismatched"
      = Some (finalize_frame cfg (mismatched_frame cfg mdf)).
Proof.
  intros cfg mdf Hl Hr Hready Hcls.
  destruct (reconcile_run self h li lp left right Hl Hr Hready Hcls)
    as (ext & l1 & l2 & l3 & l4 & Hrun & H1 & H2 & H3 & H4).
  eexists (h ++ ext), _. split; [exact Hrun|]. split; [reflexivity|].
  unfold table_of. simpl. fold cfg mdf in H1, H2, H3, H4. by rewrite H1, H2, H3, H4.
Qed.

(** X14. When the merge goes through and the comparison columns are
    non-key columns of both inputs, suffixed as the merge suffixes them,
    [reconcile] returns a table under each of the four keys the page reads,
    in that order, and the four tables have the same columns. *)
Theorem reconcile_returns_four_tables self h li lp left right :
  let cfg := self_config self in
  h !! li = Some left -> h !! lp = Some right ->
  mergeable cfg left right = true ->
  comparison_ready cfg (columns left) (columns right) = true ->
  exists h' final cols,
    reconcile self li lp h = (h', Ok final) /\
    map fst final = display_labels /\
    forall key, key ∈ display_labels ->
      exists t, table_of h' final key = Some t /\ columns t = cols.
Proof.
  intros cfg Hl Hr Hready Hcmp.
  destruct (reconcile_tables self h li lp left right Hl Hr Hready)
    as (h' & final & Hrun & Hkeys & H1 & H2 & H3 & H4).
  { by apply merged_frame_classifiable. }
  fold cfg in H1, H2, H3, H4.
  exists h', final,
    (columns (finalize_frame cfg (matched_frame cfg (merged_frame cfg left right)))).
  split; [exact Hrun|]. split; [exact Hkeys|].
  intros key Hkey. unfold display_labels in Hkey.
  repeat (apply elem_of_cons in Hkey as [->|Hkey]);
    [| | | |by apply elem_of_nil in Hkey];
    eexists; (split; [eassumption|]);
    unfold finalize_frame, df_rename, matched_frame, only_internal_frame,
      only_provider_frame, mismatched_frame; cbn [columns];
    by rewrite !columns_category_frame.
Qed.

Lemma reconcile_returns_four_tables_witness :
  exists h' final cols,
    reconcile (mkReconciler demo_config) 0 1 [demo_internal; demo_provider]
    = (h', Ok final) /\
    map fst final = display_labels /\
    forall key, key ∈ display_labels ->
      exists t, table_of h' final key = Some t /\ columns t = cols.
Proof.
  apply (reconcile_returns_four_tables (mkReconciler demo_config)
           [demo_internal; demo_provider] 0 1 demo_internal demo_provider).
  - reflexivity.
  - reflexivity.
  - vm_compute. reflexivity.
  - vm_compute. reflexivity.
Defined.

(** X15. When the merge goes through but the merged table lacks a column
    the classifier reads (a comparison column that is not in both inputs is
    not suffixed), [reconcile] raises [KeyError] for that column after the
    merged table has been created; nothing is finalized. *)
Theorem reconcile_comparison_column_missing self h li lp left right :
  let cfg := self_config self in
  let mdf := merged_frame cfg left right in
  h !! li = Some left -> h !! lp = Some right ->
  mergeable cfg left right = true ->
  classifiable cfg mdf = false ->
  exists c,
    c ∈ classifier_columns cfg /\ (c ∉ columns mdf) /\
    reconcile self li lp h = (h ++ [mdf], Raise (KeyError c)).
Proof.
  intros cfg mdf Hl Hr Hready Hcls.
  destruct (first_unreadable cfg (columns mdf)) as [c|] eqn:E;
    [|apply first_unreadable_None in E; congruence].
  exists c. destruct (first_unreadable_spec _ _ _ E) as [H1 H2].
  split; [done|]. split; [done|]. unfold reconcile. fold cfg.
  erewrite bind_run by (by apply merge_dataframes_run). fold mdf.
  erewrite bind_raise; [reflexivity|].
  apply (classify_merged_rows_raises _ _ _ mdf); [by apply lookup_snoc_length|done].
Qed.

Lemma reconcile_comparison_column_missing_witness :
  exists c,
    c ∈ classifier_columns demo_config /\
    (c ∉ columns (merged_frame demo_config demo_internal provider_without_amount)) /\
    reconcile (mkReconciler demo_config) 0 1 [demo_internal; provider_without_amount]
    = ([demo_internal; provider_without_amount]
       ++ [merged_frame demo_config demo_internal provider_without_amount],
       Raise (KeyError c)).
Proof.
  apply (reconcile_comparison_column_missing (mkReconciler demo_config)
           [demo_internal; provider_without_amount] 0 1
           demo_internal provider_without_amount).
  - reflexivity.
  - reflexivity.
  - vm_compute. reflexivity.
  - vm_compute. reflexivity.
Defined.





(** * The page: validation of the uploaded files *)

Lemma validate_file_run table label h :
  validate_file (Ok table) label h
  = (h ++ [table],
     Ok (if df_empty table then ([st_error], None)
         else match List.filter (fun col => negb (has_col col (columns table)))
                      REQUIRED_COLUMNS with
              | _ :: _ => ([st_error; st_info], None)
              | [] => ([st_success], Some (length h))
              end)).
Proof.
  unfold validate_file, bind, alloc, load, get_columns, ret.
  rewrite lookup_snoc_length. destruct (df_empty table); [reflexivity|].
  unfold bind, load. rewrite lookup_snoc_length.
  by destruct (List.filter _ REQUIRED_COLUMNS).
Qed.

Lemma filter_nil_iff {X} (P : X -> bool) (xs : list X) :
  List.filter P xs = [] <-> forall x, x ∈ xs -> P x = false.
Proof.
  induction xs as [|x xs IH]; simpl.
  - split; [|done]. by intros _ y ?%elem_of_nil.
  - destruct (P x) eqn:E.
    + split; [discriminate|]. intros H. specialize (H x). rewrite E in H.
      discriminate H. by left.
    + rewrite IH. split.
      * intros H y [->|Hy]%elem_of_cons; auto.
      * intros H y Hy. apply H. by right.
Qed.

Lemma required_columns_present cols :
  List.filter (fun col => negb (has_col col cols)) REQUIRED_COLUMNS = []
  <-> forall c, c ∈ REQUIRED_COLUMNS -> c ∈ cols.
Proof.
  rewrite filter_nil_iff. split; intros H c Hc.
  - apply has_col_elem_of. apply H in Hc. by apply negb_false_iff in Hc.
  - apply negb_false_iff, has_col_elem_of. by apply H.
Qed.

Lemma df_empty_false df :
  df_empty df = false <-> rows df <> [] /\ columns df <> [].
Proof.
  unfold df_empty. destruct (rows df), (columns df); split; try done;
    intros [? ?]; done.
Qed.

(** X17. [validate_file] never raises, and it returns the table it read
    exactly when the file could be read, the table has at least one row and
    it has the three required columns; in every other case it returns
    nothing and shows an error. *)
Theorem validate_file_accepts_iff parsed label h :
  exists h' calls r,
    validate_file parsed label h = (h', Ok (calls, r)) /\
    (forall l, r = Some l <->
       exists df, parsed = Ok df /\ l = length h /\ h' !! l = Some df /\
         rows df <> [] /\ forall c, c ∈ REQUIRED_COLUMNS -> c ∈ columns df) /\
    (r = None <-> st_error ∈ calls).
Proof.
  destruct parsed as [table|e].
  - rewrite validate_file_run.
    destruct (df_empty table) eqn:Ee.
    + eexists _, _, _. split; [reflexivity|]. split.
      * intros l. split; [discriminate|]. intros (df & [= <-] & _ & _ & Hrows & Hreq).
        assert (df_empty table = false); [|congruence].
        apply df_empty_false. split; [done|].
        intros E. specialize (Hreq "amount"). rewrite E in Hreq.
        apply (elem_of_nil "amount"), Hreq. unfold REQUIRED_COLUMNS.
        rewrite !elem_of_cons. auto.
      * split; [by left|done].
    + destruct (List.filter _ REQUIRED_COLUMNS) as [|c0 cs] eqn:Ef.
      * eexists _, _, _. split; [reflexivity|]. split.
        -- intros l. split.
           ++ intros [= <-]. exists table. split; [done|]. split; [done|].
              split; [by apply lookup_snoc_length|].
              apply df_empty_false in Ee as [? _]. split; [done|].
              by apply required_columns_present.
           ++ by intros (df & _ & -> & _).
        -- split; [discriminate|]. intros Hin.
           apply list_elem_of_singleton in Hin. discriminate.
      * eexists _, _, _. split; [reflexivity|]. split.
        -- intros l. split; [discriminate|].
           intros (df & [= <-] & _ & _ & _ & Hreq).
           apply required_columns_present in Hreq. congruence.
        -- split; [by left|done].
  - eexists _, _, _. split; [reflexivity|]. split.
    + intros l. split; [discriminate|]. by intros (df & ? & _).
    + split; [by left|done].
Qed.

Lemma merge_no_key_error cfg h li lp left right k :
  h !! li = Some left -> h !! lp = Some right ->
  first_missing_key (columns left) (columns right) (merge_key cfg) = None ->
  (merge_dataframes li lp cfg h).2 <> Raise (KeyError k).
Proof.
  intros Hl Hr Hnone. unfold merge_dataframes, try_except_KeyError, merge.
  unfold bind, load, lift, alloc, ret, raise, df_merge_outer. rewrite Hl, Hr, Hnone.
  destruct (key_types_clash _ _ _); [done|].
  destruct (existsb _ _); [done|].
  destruct (merge_key cfg); [done|]. cbv zeta.
  destruct (_ && _ && _); [done|].
  by destruct (bool_decide _).
Qed.

(** X18. Two files that [validate_file] has accepted never make the merge
    fail on a missing key, as long as the configured merge keys are among the
    three required columns: [merge_dataframes] does not raise [KeyError]. *)
Theorem validated_inputs_have_merge_keys cfg parsed_internal parsed_provider
    label_internal label_provider h h1 h2 calls1 calls2 li lp k :
  validate_file parsed_internal label_internal h = (h1, Ok (calls1, Some li)) ->
  validate_file parsed_provider label_provider h1 = (h2, Ok (calls2, Some lp)) ->
  (forall key, key ∈ merge_key cfg -> key ∈ REQUIRED_COLUMNS) ->
  (merge_dataframes li lp cfg h2).2 <> Raise (KeyError k).
Proof.
  intros H1 H2 Hkeys.
  destruct (validate_file_accepts_iff parsed_internal label_internal h)
    as (h1' & c1 & r1 & E1 & A1 & _).
  rewrite H1 in E1. injection E1 as <- <- <-.
  destruct (proj1 (A1 li) eq_refl) as (dfi & _ & _ & Hli & _ & Hreq_i).
  destruct (validate_file_accepts_iff parsed_provider label_provider h1)
    as (h2' & c2 & r2 & E2 & A2 & _).
  rewrite H2 in E2. injection E2 as <- <- <-.
  destruct (proj1 (A2 lp) eq_refl) as (dfp & Hpp & _ & Hlp & _ & Hreq_p).
  assert (Hext : h1 `prefix_of` h2).
  { subst parsed_provider. rewrite validate_file_run in H2.
    injection H2 as <- _. by apply prefix_app_r. }
  apply (merge_no_key_error cfg h2 li lp dfi dfp);
    [by eapply prefix_lookup_Some|done|].
  apply first_missing_key_None, forallb_forall. intros key Hkey%list_elem_of_In.
  apply andb_true_intro. split; apply has_col_elem_of; auto.
Qed.

Lemma validated_inputs_have_merge_keys_witness :
  (merge_dataframes 0 1 demo_config [demo_internal; demo_provider]).2
  <> Raise (KeyError "transaction_reference").
Proof.
  apply (validated_inputs_have_merge_keys demo_config
           (Ok demo_internal) (Ok demo_provider)
           "Internal System Export" "Provider Statement"
           [] [demo_internal] [demo_internal; demo_provider]
           [st_success] [st_success] 0 1 "transaction_reference").
  - reflexivity.
  - reflexivity.
  - intros key Hkey. simpl in Hkey. apply list_elem_of_singleton in Hkey.
    subst key. by left.
Defined.
